(** * Response cache gate, webhook invalidation hook and key deriver

    A shallow embedding of the read-path cache of the API server:

    - [checkCacheMiddleware] (middleware/cache), the gate that answers a
      request from the response cache or hands it to the rest of the
      pipeline;
    - [WebhooksService] (services/webhooks.ts), whose mutations publish a
      reload message on the messenger;
    - the key deriver, which is not among the sources and is modelled from
      the specification.

    Calls into collaborators (the response object, the logger, the cache
    store, [next], the messenger) are recorded in program order. *)

From Stdlib Require Import ZArith List String Ascii Bool Permutation.
From Stdlib Require Import OrderedTypeEx.
Import ListNotations.
Local Open Scope string_scope.
Local Open Scope list_scope.
#[local] Set Warnings "-register-all".

(** ** JavaScript values, as far as the gate inspects them *)

Module Js.

(** Numbers are integer valued (timestamps in milliseconds) or NaN. *)
Inductive jsval : Type :=
| JUndefined
| JNull
| JBool (b : bool)
| JNum (n : Z)
| JNaN
| JStr (s : string)
| JObj (props : list (string * jsval)).

(** A thrown value; the gate only reads its [message]. *)
Record JsError : Type := mkError { message : string }.

(** How a call ends: with a value, or by throwing / rejecting. *)
Inductive completion (A : Type) : Type :=
| Normal (a : A)
| Throw (e : JsError).
Arguments Normal {A} a.
Arguments Throw {A} e.

(** ToBoolean. *)
Definition truthy (v : jsval) : bool :=
  match v with
  | JUndefined | JNull | JNaN => false
  | JBool b => b
  | JNum n => negb (n =? 0)%Z
  | JStr s => negb (s =? "")
  | JObj _ => true
  end.

(** [v === true] and [v === false]. *)
Definition strict_eq_true (v : jsval) : bool :=
  match v with JBool true => true | _ => false end.

Definition strict_eq_false (v : jsval) : bool :=
  match v with JBool false => true | _ => false end.

Fixpoint get_prop (p : string) (props : list (string * jsval)) : jsval :=
  match props with
  | [] => JUndefined
  | (k, v) :: rest => if k =? p then v else get_prop p rest
  end.

(** [v?.p]: undefined on undefined and null, the property otherwise;
    primitives carry no own property of the names used here. *)
Definition opt_chain_get (v : jsval) (p : string) : jsval :=
  match v with
  | JObj props => get_prop p props
  | _ => JUndefined
  end.

Definition lower_ascii (c : ascii) : ascii :=
  let n := nat_of_ascii c in
  if (65 <=? n)%nat && (n <=? 90)%nat then ascii_of_nat (n + 32) else c.

(** [s.toLowerCase()] on ASCII text. *)
Fixpoint toLowerCase (s : string) : string :=
  match s with
  | EmptyString => EmptyString
  | String c rest => String (lower_ascii c) (toLowerCase rest)
  end.

(** [s?.startsWith(p)] where [s] may be undefined. *)
Definition opt_startsWith (s : option string) (p : string) : jsval :=
  match s with
  | None => JUndefined
  | Some u => JBool (String.prefix p u)
  end.

Section Arithmetic.

(** The runtime's StringToNumber; [None] stands for NaN. *)
Variable StringToNumber : string -> option Z.

(** ToNumber; plain objects convert to NaN. *)
Definition to_number (v : jsval) : option Z :=
  match v with
  | JUndefined | JNaN | JObj _ => None
  | JNull => Some 0%Z
  | JBool b => Some (if b then 1 else 0)%Z
  | JNum n => Some n
  | JStr s => StringToNumber s
  end.

(** [a - b]. *)
Definition js_minus (a b : jsval) : jsval :=
  match to_number a, to_number b with
  | Some x, Some y => JNum (x - y)
  | _, _ => JNaN
  end.

End Arithmetic.

End Js.

(** ** The cache gate *)

Module CacheGate.
Import Js.

(** Calls the middleware makes on its collaborators. *)
Inductive event : Type :=
| StoreGet (key : string)
| LogWarn (err : JsError) (msg : string)
| SetHeader (name value : string)
| SendJson (body : jsval)
| CallNext.

(** A computation appends to the trace and ends normally or by throwing. *)
Definition M (A : Type) : Type := list event -> completion A * list event.

Definition ret {A} (a : A) : M A := fun t => (Normal a, t).

Definition bind {A B} (m : M A) (k : A -> M B) : M B :=
  fun t =>
    match m t with
    | (Normal a, t') => k a t'
    | (Throw e, t') => (Throw e, t')
    end.

Definition emit (e : event) : M unit := fun t => (Normal tt, t ++ [e]).

(** [try { a = body } catch (err) { return handler(err) } ; rest(a)]. *)
Definition try_catch {A B} (body : M A) (handler : JsError -> M B)
  (rest : A -> M B) : M B :=
  fun t =>
    match body t with
    | (Normal a, t') => rest a t'
    | (Throw e, t') => handler e t'
    end.

Notation "x <- m ;; k" := (bind m (fun x => k))
  (at level 61, m at next level, right associativity).
Notation "m ;; k" := (bind m (fun _ => k))
  (at level 61, right associativity).

(** The cache store as one request sees it: what a read of each key
    settles to. *)
Definition Keyv : Type := string -> completion jsval.

Definition getCacheValue (cache : Keyv) (key : string) : M jsval :=
  fun t => (cache key, t ++ [StoreGet key]).

Definition logger_warn (err : JsError) (msg : string) : M unit :=
  emit (LogWarn err msg).

Definition res_setHeader (name value : string) : M unit :=
  emit (SetHeader name value).

Definition res_json (body : jsval) : M unit := emit (SendJson body).

Definition next : M unit := emit CallNext.

(** Process configuration, the store handle returned by [getCache()], and
    the value [Date.now()] returns when the gate reads the clock.
    [CACHE_STATUS_HEADER] is a string (a header name [res.setHeader]
    accepts, or empty) or unset. *)
Record World : Type := mkWorld {
  CACHE_ENABLED : jsval;
  CACHE_STATUS_HEADER : option string;
  cache : option Keyv;
  now : Z
}.

(** The request fields the middleware reads and the helpers it imports
    (utils/should-skip-cache, utils/get-cache-key, utils/get-cache-headers),
    together with the runtime's number parsing. *)
Class GateDeps (Request : Type) : Type := {
  method : Request -> string;
  originalUrl : Request -> option string;
  shouldSkipCache : Request -> bool;
  getCacheKey : Request -> string;
  getCacheControlHeader : Request -> jsval -> bool -> bool -> string;
  StringToNumber : string -> option Z
}.

Section Gate.

Context {Request : Type} `{GateDeps Request}.

(** [if (env['CACHE_STATUS_HEADER']) res.setHeader(`${...}`, status)]. *)
Definition set_status (w : World) (status : string) : M unit :=
  match CACHE_STATUS_HEADER w with
  | Some h => if negb (h =? "") then res_setHeader h status else ret tt
  | None => ret tt
  end.

(** The first guard: a verb other than GET on a URL outside /graphql. *)
Definition mutating_verb_bypass (req : Request) : bool :=
  negb (toLowerCase (method req) =? "get")
  && strict_eq_false (opt_startsWith (originalUrl req) "/graphql").

(** [cacheExpiryDate ? cacheExpiryDate - Date.now() : undefined]. *)
Definition cacheTTL_of (w : World) (cacheExpiryDate : jsval) : jsval :=
  if truthy cacheExpiryDate
  then js_minus StringToNumber cacheExpiryDate (JNum (now w))
  else JUndefined.

Definition checkCacheMiddleware (w : World) (req : Request) : M unit :=
  if mutating_verb_bypass req then next
  else if negb (strict_eq_true (CACHE_ENABLED w)) then next
  else
    match cache w with
    | None => next
    | Some store =>
      if shouldSkipCache req then
        set_status w "MISS" ;; next
      else
        let key := getCacheKey req in
        try_catch (getCacheValue store key)
          (fun err =>
             logger_warn err
               ("[cache] Couldn't read key " ++ key ++ ". " ++ message err) ;;
             set_status w "MISS" ;;
             next)
          (fun cachedData =>
             if truthy cachedData then
               try_catch
                 (rec <- getCacheValue store (key ++ "__expires_at") ;;
                  ret (opt_chain_get rec "exp"))
                 (fun err =>
                    logger_warn err
                      ("[cache] Couldn't read key " ++ (key ++ "__expires_at")
                         ++ ". " ++ message err) ;;
                    set_status w "MISS" ;;
                    next)
                 (fun cacheExpiryDate =>
                    let cacheTTL := cacheTTL_of w cacheExpiryDate in
                    res_setHeader "Cache-Control"
                      (getCacheControlHeader req cacheTTL true true) ;;
                    res_setHeader "Vary" "Origin, Cache-Control" ;;
                    set_status w "HIT" ;;
                    res_json cachedData)
             else
               set_status w "MISS" ;; next)
    end.

(** Running the handler for one request, from an empty trace. *)
Definition run (w : World) (req : Request) : completion unit * list event :=
  checkCacheMiddleware w req [].

Definition trace_of (w : World) (req : Request) : list event :=
  snd (run w req).

End Gate.

(** What the trace says about the response. *)
Definition is_store_get (e : event) : bool :=
  match e with StoreGet _ => true | _ => false end.

Definition is_next (e : event) : bool :=
  match e with CallNext => true | _ => false end.

Definition is_send (e : event) : bool :=
  match e with SendJson _ => true | _ => false end.

Definition is_set_header (e : event) : bool :=
  match e with SetHeader _ _ => true | _ => false end.

Definition is_warn (e : event) : bool :=
  match e with LogWarn _ _ => true | _ => false end.

Definition count (p : event -> bool) (t : list event) : nat :=
  List.length (filter p t).

(** The events of the optional diagnostic header. *)
Definition status_events (w : World) (status : string) : list event :=
  match CACHE_STATUS_HEADER w with
  | Some h => if negb (h =? "") then [SetHeader h status] else []
  | None => []
  end.

(** What the handler does on a payload that is not in the store. *)
Definition miss_trace (w : World) (key : string) : list event :=
  [StoreGet key] ++ status_events w "MISS" ++ [CallNext].

Section Branches.

Context {Request : Type} `{GateDeps Request}.

(** The gate gets as far as consulting the skip policy. *)
Definition active (w : World) (req : Request) (store : Keyv) : Prop :=
  mutating_verb_bypass req = false
  /\ CACHE_ENABLED w = JBool true
  /\ cache w = Some store.

Definition expiry_key (req : Request) : string :=
  getCacheKey req ++ "__expires_at".

Definition warn_text (key : string) (e : JsError) : string :=
  "[cache] Couldn't read key " ++ key ++ ". " ++ message e.

(** The trace of a request answered from the cache. *)
Definition hit_trace (w : World) (req : Request) (ttl body : jsval)
  : list event :=
  [StoreGet (getCacheKey req); StoreGet (expiry_key req);
   SetHeader "Cache-Control" (getCacheControlHeader req ttl true true);
   SetHeader "Vary" "Origin, Cache-Control"]
  ++ status_events w "HIT" ++ [SendJson body].

(** One of the three guards ahead of the skip policy fires. *)
Definition early_exit (w : World) (req : Request) : Prop :=
  mutating_verb_bypass req = true
  \/ strict_eq_true (CACHE_ENABLED w) = false
  \/ cache w = None.

(** The expiry record of the request's key is missing. *)
Definition expiry_absent (store : Keyv) (req : Request) : Prop :=
  store (expiry_key req) = Normal JUndefined.

(** The expiry record holds a timestamp that is not in the future. *)
Definition expiry_passed (w : World) (store : Keyv) (req : Request) : Prop :=
  exists props e,
    store (expiry_key req) = Normal (JObj props)
    /\ get_prop "exp" props = JNum e
    /\ (e - now w <= 0)%Z.

(** The reading under which a payload without a live expiry record is
    handled like a payload that is not in the store. *)
Definition stale_means_miss (w : World) (req : Request) (store : Keyv)
  : Prop :=
  forall v,
    active w req store -> shouldSkipCache req = false ->
    store (getCacheKey req) = Normal v -> truthy v = true ->
    expiry_absent store req \/ expiry_passed w store req ->
    run w req = (Normal tt, miss_trace w (getCacheKey req)).

(** The ways a run of the handler can go, with the trace each leaves. *)
Inductive branch (w : World) (req : Request) : list event -> Prop :=
| BrBypass :
    early_exit w req ->
    branch w req [CallNext]
| BrSkip store :
    active w req store -> shouldSkipCache req = true ->
    branch w req (status_events w "MISS" ++ [CallNext])
| BrPayloadError store e :
    active w req store -> shouldSkipCache req = false ->
    store (getCacheKey req) = Throw e ->
    branch w req
      ([StoreGet (getCacheKey req);
        LogWarn e (warn_text (getCacheKey req) e)]
       ++ status_events w "MISS" ++ [CallNext])
| BrPayloadAbsent store v :
    active w req store -> shouldSkipCache req = false ->
    store (getCacheKey req) = Normal v -> truthy v = false ->
    branch w req (miss_trace w (getCacheKey req))
| BrExpiryError store v e :
    active w req store -> shouldSkipCache req = false ->
    store (getCacheKey req) = Normal v -> truthy v = true ->
    store (expiry_key req) = Throw e ->
    branch w req
      ([StoreGet (getCacheKey req); StoreGet (expiry_key req);
        LogWarn e (warn_text (expiry_key req) e)]
       ++ status_events w "MISS" ++ [CallNext])
| BrServed store v rec :
    active w req store -> shouldSkipCache req = false ->
    store (getCacheKey req) = Normal v -> truthy v = true ->
    store (expiry_key req) = Normal rec ->
    branch w req (hit_trace w req (cacheTTL_of w (opt_chain_get rec "exp")) v).

End Branches.

(** A small concrete request type and helper set, for evaluating the
    handler on examples. *)
Record SampleRequest : Type := mkSample {
  sample_method : string;
  sample_url : option string;
  sample_no_cache : bool
}.

#[export] Instance sample_deps : GateDeps SampleRequest := {
  method := sample_method;
  originalUrl := sample_url;
  shouldSkipCache := sample_no_cache;
  getCacheKey := fun r =>
    match sample_url r with Some u => u | None => "" end;
  getCacheControlHeader := fun _ ttl _ _ =>
    match ttl with JNum _ => "max-age" | _ => "no-cache" end;
  StringToNumber := fun _ => None
}.

Definition sample_payload : jsval := JObj [("data", JStr "items")].

(** A store holding a payload for /items whose expiry record is missing. *)
Definition store_without_expiry : Keyv :=
  fun k => if k =? "/items" then Normal sample_payload else Normal JUndefined.

(** A store holding a payload for /items that expired at time 1000. *)
Definition store_expired : Keyv :=
  fun k =>
    if k =? "/items" then Normal sample_payload
    else if k =? "/items__expires_at" then Normal (JObj [("exp", JNum 1000)])
    else Normal JUndefined.

(** A store holding a payload for /items that expires at time 9000. *)
Definition store_fresh : Keyv :=
  fun k =>
    if k =? "/items" then Normal sample_payload
    else if k =? "/items__expires_at" then Normal (JObj [("exp", JNum 9000)])
    else Normal JUndefined.

(** A store whose every read fails. *)
Definition store_down : Keyv := fun _ => Throw (mkError "ECONNREFUSED").

Definition sample_world (store : option Keyv) : World :=
  mkWorld (JBool true) (Some "X-Cache-Status") store 2000.

Definition get_items : SampleRequest := mkSample "GET" (Some "/items") false.

Definition post_items : SampleRequest := mkSample "POST" (Some "/items") false.

Definition post_no_url : SampleRequest := mkSample "POST" None false.

Definition get_items_no_cache : SampleRequest :=
  mkSample "GET" (Some "/items") true.

End CacheGate.

(** ** The webhooks service *)

Module Webhooks.
Import Js.

(** The payload handed to [messenger.publish]. *)
Record Message : Type := mkMessage { type : string }.

(** A call to [publish] returns (a value that is not awaited, and that may
    settle later either way) or throws on the spot. *)
Inductive call_outcome : Type :=
| Returns (later : completion unit)
| Throws (e : JsError).

Definition publication : Type := (string * Message)%type.

(** The messenger: how a [publish] call ends, given what was published
    before it. *)
Class Messenger : Type := {
  publish_outcome : string -> Message -> list publication -> call_outcome
}.

(** The inherited [ItemsService] mutations over the database [DB]. *)
Class ItemsService (DB Item MutationOptions PrimaryKey : Type) : Type := {
  super_createOne :
    Item -> option MutationOptions -> DB -> completion PrimaryKey * DB;
  super_createMany :
    list Item -> option MutationOptions -> DB
    -> completion (list PrimaryKey) * DB;
  super_updateMany :
    list PrimaryKey -> Item -> option MutationOptions -> DB
    -> completion (list PrimaryKey) * DB;
  super_deleteMany :
    list PrimaryKey -> option MutationOptions -> DB
    -> completion (list PrimaryKey) * DB
}.

Section Service.

Context {DB Item MutationOptions PrimaryKey : Type}.
Context {items : ItemsService DB Item MutationOptions PrimaryKey}.
Context {messenger : Messenger}.

(** The database and the calls made to [messenger.publish] so far. *)
Record State : Type := mkState {
  db : DB;
  published : list publication
}.

Definition S (A : Type) : Type := State -> completion A * State.

Definition ret {A} (a : A) : S A := fun st => (Normal a, st).

Definition bind {A B} (m : S A) (k : A -> S B) : S B :=
  fun st =>
    match m st with
    | (Normal a, st') => k a st'
    | (Throw e, st') => (Throw e, st')
    end.

(** [await super.m(...)]. *)
Definition await_super {A} (m : DB -> completion A * DB) : S A :=
  fun st =>
    let (r, db') := m (db st) in
    (r, mkState db' (published st)).

(** [this.messenger.publish(channel, msg)], its result dropped. *)
Definition messenger_publish (channel : string) (msg : Message) : S unit :=
  fun st =>
    let st' := mkState (db st) (published st ++ [(channel, msg)]) in
    match publish_outcome channel msg (published st) with
    | Returns _ => (Normal tt, st')
    | Throws e => (Throw e, st')
    end.

Definition reload : Message := mkMessage "reload".

Definition createOne (data : Item) (opts : option MutationOptions)
  : S PrimaryKey :=
  bind (await_super (super_createOne data opts)) (fun result =>
  bind (messenger_publish "webhooks" reload) (fun _ =>
  ret result)).

Definition createMany (data : list Item) (opts : option MutationOptions)
  : S (list PrimaryKey) :=
  bind (await_super (super_createMany data opts)) (fun result =>
  bind (messenger_publish "webhooks" reload) (fun _ =>
  ret result)).

Definition updateMany (keys : list PrimaryKey) (data : Item)
  (opts : option MutationOptions) : S (list PrimaryKey) :=
  bind (await_super (super_updateMany keys data opts)) (fun result =>
  bind (messenger_publish "webhooks" reload) (fun _ =>
  ret result)).

Definition deleteMany (keys : list PrimaryKey) (opts : option MutationOptions)
  : S (list PrimaryKey) :=
  bind (await_super (super_deleteMany keys opts)) (fun result =>
  bind (messenger_publish "webhooks" reload) (fun _ =>
  ret result)).

(** The publications a mutation is expected to add, given how the inherited
    mutation ended. *)
Definition expected_publications {A} (r : completion A) : list publication :=
  match r with
  | Normal _ => [("webhooks", reload)]
  | Throw _ => []
  end.

(** The reading under which a [createOne] whose inherited mutation succeeded
    returns that result however the publish call ends. *)
Definition publish_failure_tolerated (data : Item)
  (opts : option MutationOptions) (st : State) : Prop :=
  forall r db',
    super_createOne data opts (db st) = (Normal r, db') ->
    fst (createOne data opts st) = Normal r.

End Service.

(** A small items table, for evaluating the service on examples: rows are
    strings, keys are row numbers, an empty row is rejected. *)
Definition sample_items : ItemsService (list string) string unit nat := {|
  super_createOne := fun row _ tbl =>
    if row =? "" then (Throw (mkError "invalid payload"), tbl)
    else (Normal (List.length tbl), tbl ++ [row]);
  super_createMany := fun rows _ tbl =>
    if existsb (fun row => row =? "") rows
    then (Throw (mkError "invalid payload"), tbl)
    else (Normal (seq (List.length tbl) (List.length rows)), tbl ++ rows);
  super_updateMany := fun keys row _ tbl =>
    if row =? "" then (Throw (mkError "invalid payload"), tbl)
    else (Normal keys,
          map (fun kr => if existsb (Nat.eqb (fst kr)) keys then row
                         else snd kr)
            (combine (seq 0 (List.length tbl)) tbl));
  super_deleteMany := fun keys _ tbl =>
    if forallb (fun k => k <? List.length tbl)%nat keys
    then (Normal keys,
          map snd
            (filter (fun kr => negb (existsb (Nat.eqb (fst kr)) keys))
               (combine (seq 0 (List.length tbl)) tbl)))
    else (Throw (mkError "forbidden"), tbl)
|}.

(** A messenger whose publish returns and settles. *)
Definition messenger_up : Messenger :=
  {| publish_outcome := fun _ _ _ => Returns (Normal tt) |}.

(** A messenger whose publish returns a promise that rejects later. *)
Definition messenger_rejecting : Messenger :=
  {| publish_outcome := fun _ _ _ =>
       Returns (Throw (mkError "bus unavailable")) |}.

(** A messenger whose publish throws. *)
Definition messenger_throwing : Messenger :=
  {| publish_outcome := fun _ _ _ => Throws (mkError "bus unavailable") |}.

Definition empty_state : State (DB := list string) := mkState [] [].

End Webhooks.

(** ** The key deriver *)

Module KeyDeriver.

(** Modelled from the spec: utils/get-cache-key is not among the sources, so
    the request as the Key Deriver sees it is taken from the spec's Request
    Fingerprint: the method, the normalized path, the query parameters as
    name/value pairs in the order they arrived, and the caller identity
    token. *)
Record KeyRequest : Type := mkKeyRequest {
  key_method : string;
  key_path : string;
  key_query : list (string * string);
  key_caller : string
}.

(** Modelled from the spec: the order used to normalize the query
    parameters, by name and then by value. *)
Definition param_leb (p q : string * string) : bool :=
  if fst p =? fst q then String.leb (snd p) (snd q)
  else String.leb (fst p) (fst q).

Section Sorting.

Variable A : Type.
Variable leb : A -> A -> bool.

(** Modelled from the spec: the normalization of the parameter order, an
    insertion sort by [leb]. *)
Fixpoint insert_sorted (x : A) (l : list A) : list A :=
  match l with
  | [] => [x]
  | y :: rest => if leb x y then x :: y :: rest else y :: insert_sorted x rest
  end.

(** Modelled from the spec: the parameters in normalized order. *)
Fixpoint sort_by (l : list A) : list A :=
  match l with
  | [] => []
  | x :: rest => insert_sorted x (sort_by rest)
  end.

End Sorting.

Arguments insert_sorted {A} leb x l.
Arguments sort_by {A} leb l.

(** Modelled from the spec: the canonical query string, the parameters
    sorted and written name=value, each followed by an ampersand. *)
Fixpoint render_query (params : list (string * string)) : string :=
  match params with
  | [] => ""
  | (name, value) :: rest => name ++ "=" ++ value ++ "&" ++ render_query rest
  end.

Section Derive.

(** Modelled from the spec: whether the resource behind a path enforces
    per-caller visibility. *)
Variable identity_sensitive : string -> bool.

(** Modelled from the spec: [deriveKey(request) -> string], a deterministic
    function of the method, the path, the sorted query parameters and, where
    responses vary by caller, the caller identity token. *)
Definition deriveKey (r : KeyRequest) : string :=
  key_method r ++ " " ++ key_path r ++ "?"
  ++ render_query (sort_by param_leb (key_query r)) ++ "#"
  ++ (if identity_sensitive (key_path r) then key_caller r else "").

End Derive.

(** A policy under which every path but /server/ping is identity
    sensitive, for evaluating the deriver on examples. *)
Definition sample_policy (path : string) : bool :=
  negb (path =? "/server/ping").

End KeyDeriver.

(** ** The permissions controller *)

Module Permissions.

(** Request bodies and service results: JSON values, undefined, and the
    built-in functions a property read can return. *)
Inductive value : Type :=
| VUndefined
| VNull
| VBool (b : bool)
| VNum (n : Z)
| VStr (s : string)
| VArr (items : list value)
| VObj (props : list (string * value))
| VNative (name : string).

(** [PrimaryKey = string | number]. *)
Inductive PrimaryKey : Type :=
| KeyStr (s : string)
| KeyNum (n : Z).

(** Thrown values, as far as the handlers tell them apart. *)
Inductive Exception : Type :=
| ForbiddenException
| TypeError
| OtherException (name : string).

Inductive result (A : Type) : Type :=
| Ok (a : A)
| Raise (e : Exception).
Arguments Ok {A} a.
Arguments Raise {A} e.

(** [error instanceof ForbiddenException]. *)
Definition instanceof_Forbidden (e : Exception) : bool :=
  match e with ForbiddenException => true | _ => false end.

Definition truthy (v : value) : bool :=
  match v with
  | VUndefined | VNull => false
  | VBool b => b
  | VNum n => negb (n =? 0)%Z
  | VStr s => negb (s =? "")
  | VArr _ | VObj _ | VNative _ => true
  end.

Definition isArray (v : value) : bool :=
  match v with VArr _ => true | _ => false end.

Fixpoint lookup_prop (p : string) (props : list (string * value)) : value :=
  match props with
  | [] => VUndefined
  | (k, v) :: rest => if k =? p then v else lookup_prop p rest
  end.

(** [v.p] for the property names the handlers read (keys, data, query):
    a TypeError on undefined and null, the property on an object, the
    built-in [keys] method on an array, undefined otherwise. *)
Definition member (v : value) (p : string) : result value :=
  match v with
  | VUndefined | VNull => Raise TypeError
  | VObj props => Ok (lookup_prop p props)
  | VArr _ =>
    if p =? "keys" then Ok (VNative "Array.prototype.keys") else Ok VUndefined
  | _ => Ok VUndefined
  end.

Definition key_value (k : PrimaryKey) : value :=
  match k with
  | KeyStr s => VStr s
  | KeyNum n => VNum n
  end.

(** A [PrimaryKey[]] as a value. *)
Definition keys_value (keys : list PrimaryKey) : value :=
  VArr (map key_value keys).

(** [savedKeys[0]]. *)
Definition index0 (keys : list PrimaryKey) : value :=
  match keys with
  | [] => VUndefined
  | k :: _ => key_value k
  end.

(** [s.endsWith(suffix)]. *)
Definition endsWith (s suffix : string) : bool :=
  (String.length suffix <=? String.length s)%nat
  && (substring (String.length s - String.length suffix)
        (String.length suffix) s =? suffix).

(** [{ accountability, schema }], the options a service is built from. *)
Record ServiceOptions (Accountability Schema : Type) : Type := mkOptions {
  opt_accountability : Accountability;
  opt_schema : Schema
}.
Arguments mkOptions {Accountability Schema} _ _.
Arguments opt_accountability {Accountability Schema} _.
Arguments opt_schema {Accountability Schema} _.

(** The collaborators of the controller: the methods of
    [PermissionsService] and [MetaService] over the database [DB], and
    [sanitizeQuery]. *)
Class Services (DB Query Accountability Schema : Type) : Type := {
  createMany : ServiceOptions Accountability Schema -> value -> DB
               -> result (list PrimaryKey) * DB;
  createOne : ServiceOptions Accountability Schema -> value -> DB
              -> result PrimaryKey * DB;
  readMany : ServiceOptions Accountability Schema -> value -> Query -> DB
             -> result value * DB;
  readOne : ServiceOptions Accountability Schema -> value -> Query -> DB
            -> result value * DB;
  readSingleton : ServiceOptions Accountability Schema -> Query -> DB
                  -> result value * DB;
  readByQuery : ServiceOptions Accountability Schema -> Query -> DB
                -> result value * DB;
  getMetaForQuery : ServiceOptions Accountability Schema -> string -> Query
                    -> DB -> result value * DB;
  updateBatch : ServiceOptions Accountability Schema -> value -> DB
                -> result (list PrimaryKey) * DB;
  updateMany : ServiceOptions Accountability Schema -> value -> value -> DB
               -> result (list PrimaryKey) * DB;
  updateByQuery : ServiceOptions Accountability Schema -> Query -> value -> DB
                  -> result (list PrimaryKey) * DB;
  updateOne : ServiceOptions Accountability Schema -> value -> value -> DB
              -> result PrimaryKey * DB;
  deleteMany : ServiceOptions Accountability Schema -> value -> DB
               -> result (list PrimaryKey) * DB;
  deleteByQuery : ServiceOptions Accountability Schema -> Query -> DB
                  -> result (list PrimaryKey) * DB;
  deleteOne : ServiceOptions Accountability Schema -> value -> DB
              -> result PrimaryKey * DB;
  sanitizeQuery : value -> Accountability -> result Query
}.

Section Controller.

Context {DB Query Accountability Schema : Type}.
Context {services : Services DB Query Accountability Schema}.

(** The request fields the handlers read. *)
Record Request : Type := mkRequest {
  body : value;
  sanitizedQuery : Query;
  accountability : Accountability;
  schema : Schema;
  singleton : bool;
  path : string;
  params_pk : string
}.

(** Service methods by name, with the arguments of the call. *)
Inductive call : Type :=
| CreateMany (data : value)
| CreateOne (data : value)
| ReadMany (keys : value) (query : Query)
| ReadOne (key : value) (query : Query)
| ReadSingleton (query : Query)
| ReadByQuery (query : Query)
| GetMetaForQuery (collection : string) (query : Query)
| UpdateBatch (data : value)
| UpdateMany (keys data : value)
| UpdateByQuery (query : Query) (data : value)
| UpdateOne (key data : value)
| DeleteMany (keys : value)
| DeleteByQuery (query : Query)
| DeleteOne (key : value).

(** What a handler does that the rest of the pipeline can see. *)
Inductive event : Type :=
| Called (c : call)
| SetPayload (payload : value)
| Next.

(** The database and the events so far. *)
Record State : Type := mkState {
  db : DB;
  log : list event
}.

Definition Handler (A : Type) : Type := State -> result A * State.

Definition ret {A} (a : A) : Handler A := fun st => (Ok a, st).

Definition raise {A} (e : Exception) : Handler A := fun st => (Raise e, st).

Definition bind {A B} (m : Handler A) (k : A -> Handler B) : Handler B :=
  fun st =>
    match m st with
    | (Ok a, st') => k a st'
    | (Raise e, st') => (Raise e, st')
    end.

Definition lift {A} (r : result A) : Handler A := fun st => (r, st).

Definition emit (e : event) : Handler unit :=
  fun st => (Ok tt, mkState (db st) (log st ++ [e])).

(** [try { a = body } catch (error) { return handler(error) } ; rest(a)]. *)
Definition try_catch {A B} (body : Handler A) (handler : Exception -> Handler B)
  (rest : A -> Handler B) : Handler B :=
  fun st =>
    match body st with
    | (Ok a, st') => rest a st'
    | (Raise e, st') => handler e st'
    end.

(** [await service.m(...)]. *)
Definition await_call {A} (c : call) (m : DB -> result A * DB) : Handler A :=
  fun st =>
    let (r, db') := m (db st) in
    (r, mkState db' (log st ++ [Called c])).

(** [res.locals['payload'] = payload]. *)
Definition set_payload (payload : value) : Handler unit :=
  emit (SetPayload payload).

Definition next : Handler unit := emit Next.

Notation "x <- m ;; k" := (bind m (fun x => k))
  (at level 61, m at next level, right associativity).
Notation "m ;; k" := (bind m (fun _ => k))
  (at level 61, right associativity).

(** [new PermissionsService({ accountability, schema })]. *)
Definition service_of (req : Request)
  : ServiceOptions Accountability Schema :=
  mkOptions (accountability req) (schema req).

(** [catch (error) { if (error instanceof ForbiddenException) return next();
    throw error; }]. *)
Definition forbidden_to_next (error : Exception) : Handler unit :=
  if instanceof_Forbidden error then next else raise error.

(** [router.post('/')]. *)
Definition post_handler (req : Request) : Handler unit :=
  let service := service_of req in
  savedKeys <-
    (if isArray (body req) then
       keys <- await_call (CreateMany (body req))
                 (createMany service (body req)) ;;
       ret ([] ++ keys)
     else
       key <- await_call (CreateOne (body req))
                (createOne service (body req)) ;;
       ret ([] ++ [key])) ;;
  try_catch
    (if isArray (body req) then
       items <- await_call
                  (ReadMany (keys_value savedKeys) (sanitizedQuery req))
                  (readMany service (keys_value savedKeys)
                     (sanitizedQuery req)) ;;
       set_payload (VObj [("data", items)])
     else
       item <- await_call
                 (ReadOne (index0 savedKeys) (sanitizedQuery req))
                 (readOne service (index0 savedKeys) (sanitizedQuery req)) ;;
       set_payload (VObj [("data", item)]))
    forbidden_to_next
    (fun _ => next).

(** [readHandler], mounted on GET / and SEARCH /. *)
Definition readHandler (req : Request) : Handler unit :=
  let service := service_of req in
  let metaService := service_of req in
  result <-
    (if singleton req then
       await_call (ReadSingleton (sanitizedQuery req))
         (readSingleton service (sanitizedQuery req))
     else
       keys <- lift (member (body req) "keys") ;;
       if truthy keys then
         await_call (ReadMany keys (sanitizedQuery req))
           (readMany service keys (sanitizedQuery req))
       else
         await_call (ReadByQuery (sanitizedQuery req))
           (readByQuery service (sanitizedQuery req))) ;;
  meta <- await_call
            (GetMetaForQuery "directus_permissions" (sanitizedQuery req))
            (getMetaForQuery metaService "directus_permissions"
               (sanitizedQuery req)) ;;
  set_payload (VObj [("data", result); ("meta", meta)]) ;;
  next.

(** [router.get('/:pk')]. *)
Definition get_pk_handler (req : Request) : Handler unit :=
  if endsWith (path req) "me" then next
  else
    let service := service_of req in
    record <- await_call
                (ReadOne (VStr (params_pk req)) (sanitizedQuery req))
                (readOne service (VStr (params_pk req))
                   (sanitizedQuery req)) ;;
    set_payload (VObj [("data", record)]) ;;
    next.

(** [router.patch('/')]. *)
Definition patch_handler (req : Request) : Handler unit :=
  let service := service_of req in
  keys <-
    (if isArray (body req) then
       await_call (UpdateBatch (body req)) (updateBatch service (body req))
     else
       body_keys <- lift (member (body req) "keys") ;;
       if truthy body_keys then
         keys_arg <- lift (member (body req) "keys") ;;
         data <- lift (member (body req) "data") ;;
         await_call (UpdateMany keys_arg data)
           (updateMany service keys_arg data)
       else
         body_query <- lift (member (body req) "query") ;;
         sanitizedQuery <- lift (sanitizeQuery body_query
                                   (accountability req)) ;;
         data <- lift (member (body req) "data") ;;
         await_call (UpdateByQuery sanitizedQuery data)
           (updateByQuery service sanitizedQuery data)) ;;
  try_catch
    (result <- await_call
                 (ReadMany (keys_value keys) (sanitizedQuery req))
                 (readMany service (keys_value keys) (sanitizedQuery req)) ;;
     set_payload (VObj [("data", result)]))
    forbidden_to_next
    (fun _ => next).

(** [router.patch('/:pk')]. *)
Definition patch_pk_handler (req : Request) : Handler unit :=
  let service := service_of req in
  primaryKey <- await_call (UpdateOne (VStr (params_pk req)) (body req))
                  (updateOne service (VStr (params_pk req)) (body req)) ;;
  try_catch
    (item <- await_call
               (ReadOne (key_value primaryKey) (sanitizedQuery req))
               (readOne service (key_value primaryKey)
                  (sanitizedQuery req)) ;;
     set_payload (VObj [("data", if truthy item then item else VNull)]))
    forbidden_to_next
    (fun _ => next).

(** [router.delete('/')]. *)
Definition delete_handler (req : Request) : Handler unit :=
  let service := service_of req in
  (if isArray (body req) then
     await_call (DeleteMany (body req)) (deleteMany service (body req)) ;;
     ret tt
   else
     body_keys <- lift (member (body req) "keys") ;;
     if truthy body_keys then
       keys_arg <- lift (member (body req) "keys") ;;
       await_call (DeleteMany keys_arg) (deleteMany service keys_arg) ;;
       ret tt
     else
       body_query <- lift (member (body req) "query") ;;
       sanitizedQuery <- lift (sanitizeQuery body_query
                                 (accountability req)) ;;
       await_call (DeleteByQuery sanitizedQuery)
         (deleteByQuery service sanitizedQuery) ;;
       ret tt) ;;
  next.

(** [router.delete('/:pk')]. *)
Definition delete_pk_handler (req : Request) : Handler unit :=
  let service := service_of req in
  await_call (DeleteOne (VStr (params_pk req)))
    (deleteOne service (VStr (params_pk req))) ;;
  next.

(** The routes of the router, and the handler mounted on each. *)
Inductive route : Type :=
| PostRoot
| GetRoot
| SearchRoot
| GetPk
| PatchRoot
| PatchPk
| DeleteRoot
| DeletePk.

Definition handler_of (r : route) : Request -> Handler unit :=
  match r with
  | PostRoot => post_handler
  | GetRoot | SearchRoot => readHandler
  | GetPk => get_pk_handler
  | PatchRoot => patch_handler
  | PatchPk => patch_pk_handler
  | DeleteRoot => delete_handler
  | DeletePk => delete_pk_handler
  end.

(** The events a run adds to the log. *)
Definition added (st st' : State) : list event :=
  skipn (List.length (log st)) (log st').

Definition is_next (e : event) : bool :=
  match e with Next => true | _ => false end.

Definition is_set_payload (e : event) : bool :=
  match e with SetPayload _ => true | _ => false end.


Definition count (p : event -> bool) (t : list event) : nat :=
  List.length (filter p t).

(** A run seen from outside: how it ended, the database it left, and the
    events it added. *)
Definition outcome_of (h : Handler unit) (st : State)
  : result unit * DB * list event :=
  let (r, st') := h st in (r, db st', added st st').

Definition is_read_call (e : event) : bool :=
  match e with
  | Called (ReadMany _ _) | Called (ReadOne _ _) => true
  | _ => false
  end.

(** The first service call of a run, if it made one before anything
    else. *)
Definition first_call (evs : list event) : option call :=
  match evs with
  | Called c :: _ => Some c
  | _ => None
  end.

Definition is_write_route (r : route) : bool :=
  match r with
  | PostRoot | PatchRoot | PatchPk => true
  | _ => false
  end.

End Controller.

(** A small permissions table, for evaluating the handlers on examples:
    rows are values, keys are row numbers, the accountability says whether
    the caller may read, and a body query must be an object. *)
Definition sample_rows (keys : value) (tbl : list value) : value :=
  match keys with
  | VArr ks =>
    VArr (map (fun k => match k with
                        | VNum i => nth (Z.to_nat i) tbl VNull
                        | _ => VNull
                        end) ks)
  | _ => VArr []
  end.

Definition sample_row (key : value) (tbl : list value) : value :=
  match key with
  | VNum i => nth (Z.to_nat i) tbl VUndefined
  | _ => VUndefined
  end.

Definition sample_new_keys (tbl rows : list value) : list PrimaryKey :=
  map (fun i => KeyNum (Z.of_nat i))
    (seq (List.length tbl) (List.length rows)).

Definition sample_guard {A} (o : ServiceOptions bool unit)
  (r : result A * list value) (tbl : list value) : result A * list value :=
  if opt_accountability o then r else (Raise ForbiddenException, tbl).

Definition sample_services : Services (list value) unit bool unit := {|
  createMany := fun _ data tbl =>
    match data with
    | VArr rows => (Ok (sample_new_keys tbl rows), tbl ++ rows)
    | _ => (Raise (OtherException "InvalidPayloadException"), tbl)
    end;
  createOne := fun _ data tbl =>
    match data with
    | VObj _ => (Ok (KeyNum (Z.of_nat (List.length tbl))), tbl ++ [data])
    | _ => (Raise (OtherException "InvalidPayloadException"), tbl)
    end;
  readMany := fun o keys _ tbl =>
    sample_guard o (Ok (sample_rows keys tbl), tbl) tbl;
  readOne := fun o key _ tbl =>
    sample_guard o (Ok (sample_row key tbl), tbl) tbl;
  readSingleton := fun o _ tbl =>
    sample_guard o (Ok (hd VNull tbl), tbl) tbl;
  readByQuery := fun o _ tbl => sample_guard o (Ok (VArr tbl), tbl) tbl;
  getMetaForQuery := fun _ _ _ tbl =>
    (Ok (VObj [("total_count", VNum (Z.of_nat (List.length tbl)))]), tbl);
  updateBatch := fun _ data tbl =>
    match data with
    | VArr rows => (Ok (sample_new_keys [] rows), rows)
    | _ => (Raise (OtherException "InvalidPayloadException"), tbl)
    end;
  updateMany := fun _ keys data tbl =>
    match keys with
    | VArr ks => (Ok (sample_new_keys [] ks), map (fun _ => data) tbl)
    | _ => (Raise (OtherException "InvalidPayloadException"), tbl)
    end;
  updateByQuery := fun _ _ data tbl =>
    (Ok (sample_new_keys [] tbl), map (fun _ => data) tbl);
  updateOne := fun _ key data tbl =>
    match key with
    | VStr "0" => (Ok (KeyNum 0), data :: tl tbl)
    | _ => (Raise ForbiddenException, tbl)
    end;
  deleteMany := fun _ keys tbl =>
    match keys with
    | VArr ks => (Ok (sample_new_keys [] ks), skipn (List.length ks) tbl)
    | _ => (Raise (OtherException "InvalidPayloadException"), tbl)
    end;
  deleteByQuery := fun _ _ tbl => (Ok (sample_new_keys [] tbl), []);
  deleteOne := fun _ key tbl =>
    match key with
    | VStr "0" => (Ok (KeyNum 0), tl tbl)
    | _ => (Raise ForbiddenException, tbl)
    end;
  sanitizeQuery := fun q _ =>
    match q with
    | VObj _ => Ok tt
    | _ => Raise (OtherException "InvalidQueryException")
    end
|}.

Definition sample_request (admin : bool) (b : value) (p pk : string)
  : Request (Query := unit) (Accountability := bool) (Schema := unit) :=
  mkRequest b tt admin tt false p pk.

Definition sample_state (tbl : list value) : State (Query := unit) :=
  mkState tbl [].

Definition role_row : value := VObj [("role", VStr "editor")].

End Permissions.

(** * Properties of the cache gate *)

Module GateFacts.
Import Js CacheGate.

Section Facts.

Context {Request : Type} `{GateDeps Request}.

Lemma set_status_run (w : World) (status : string) (t : list event) :
  set_status w status t = (Normal tt, t ++ status_events w status).
Proof.
  unfold set_status, status_events.
  destruct (CACHE_STATUS_HEADER w) as [h|]; cbn.
  - destruct (h =? ""); cbn; unfold ret; now rewrite ?app_nil_r.
  - unfold ret; now rewrite app_nil_r.
Qed.

Lemma status_then_next (w : World) (status : string) (t : list event) :
  (set_status w status ;; next) t
  = (Normal tt, t ++ status_events w status ++ [CallNext]).
Proof.
  unfold bind. rewrite set_status_run. unfold next, emit.
  now rewrite <- app_assoc.
Qed.

Lemma run_verb_bypass (w : World) (req : Request) :
  mutating_verb_bypass req = true -> run w req = (Normal tt, [CallNext]).
Proof. intros Hb. unfold run, checkCacheMiddleware. now rewrite Hb. Qed.

Lemma run_disabled (w : World) (req : Request) :
  strict_eq_true (CACHE_ENABLED w) = false ->
  run w req = (Normal tt, [CallNext]).
Proof.
  intros Hd. unfold run, checkCacheMiddleware. rewrite Hd.
  now destruct (mutating_verb_bypass req).
Qed.

Lemma run_no_store (w : World) (req : Request) :
  cache w = None -> run w req = (Normal tt, [CallNext]).
Proof.
  intros Hc. unfold run, checkCacheMiddleware. rewrite Hc.
  destruct (mutating_verb_bypass req); [reflexivity|].
  now destruct (negb (strict_eq_true (CACHE_ENABLED w))).
Qed.

(** Past the three guards the handler is the lookup on the store. *)
Lemma run_active (w : World) (req : Request) (store : Keyv) :
  active w req store ->
  run w req
  = (if shouldSkipCache req then set_status w "MISS" ;; next
     else
       try_catch (getCacheValue store (getCacheKey req))
         (fun err =>
            logger_warn err (warn_text (getCacheKey req) err) ;;
            set_status w "MISS" ;; next)
         (fun cachedData =>
            if truthy cachedData then
              try_catch
                (rec <- getCacheValue store (expiry_key req) ;;
                 ret (opt_chain_get rec "exp"))
                (fun err =>
                   logger_warn err (warn_text (expiry_key req) err) ;;
                   set_status w "MISS" ;; next)
                (fun cacheExpiryDate =>
                   res_setHeader "Cache-Control"
                     (getCacheControlHeader req
                        (cacheTTL_of w cacheExpiryDate) true true) ;;
                   res_setHeader "Vary" "Origin, Cache-Control" ;;
                   set_status w "HIT" ;;
                   res_json cachedData)
            else set_status w "MISS" ;; next)) [].
Proof.
  intros (Hb & He & Hc). unfold run, checkCacheMiddleware.
  now rewrite Hb, He, Hc.
Qed.

Lemma run_skip (w : World) (req : Request) (store : Keyv) :
  active w req store -> shouldSkipCache req = true ->
  run w req = (Normal tt, status_events w "MISS" ++ [CallNext]).
Proof.
  intros Ha Hs. rewrite (run_active _ _ _ Ha), Hs.
  now rewrite status_then_next.
Qed.

Lemma run_payload_error (w : World) (req : Request) (store : Keyv)
  (e : JsError) :
  active w req store -> shouldSkipCache req = false ->
  store (getCacheKey req) = Throw e ->
  run w req
  = (Normal tt,
     [StoreGet (getCacheKey req); LogWarn e (warn_text (getCacheKey req) e)]
     ++ status_events w "MISS" ++ [CallNext]).
Proof.
  intros Ha Hs Hr. rewrite (run_active _ _ _ Ha), Hs.
  unfold try_catch, getCacheValue. rewrite Hr.
  unfold bind at 1. unfold logger_warn, emit. now rewrite status_then_next.
Qed.

Lemma run_payload_absent (w : World) (req : Request) (store : Keyv)
  (v : jsval) :
  active w req store -> shouldSkipCache req = false ->
  store (getCacheKey req) = Normal v -> truthy v = false ->
  run w req = (Normal tt, miss_trace w (getCacheKey req)).
Proof.
  intros Ha Hs Hr Hv. rewrite (run_active _ _ _ Ha), Hs.
  unfold try_catch, getCacheValue. rewrite Hr, Hv.
  now rewrite status_then_next.
Qed.

Lemma run_expiry_error (w : World) (req : Request) (store : Keyv)
  (v : jsval) (e : JsError) :
  active w req store -> shouldSkipCache req = false ->
  store (getCacheKey req) = Normal v -> truthy v = true ->
  store (expiry_key req) = Throw e ->
  run w req
  = (Normal tt,
     [StoreGet (getCacheKey req); StoreGet (expiry_key req);
      LogWarn e (warn_text (expiry_key req) e)]
     ++ status_events w "MISS" ++ [CallNext]).
Proof.
  intros Ha Hs Hr Hv Hx. rewrite (run_active _ _ _ Ha), Hs.
  unfold try_catch at 1. unfold getCacheValue at 1. rewrite Hr, Hv.
  unfold try_catch, bind at 1, getCacheValue. rewrite Hx.
  unfold bind at 1. unfold logger_warn, emit. now rewrite status_then_next.
Qed.

Lemma run_served (w : World) (req : Request) (store : Keyv)
  (v rec : jsval) :
  active w req store -> shouldSkipCache req = false ->
  store (getCacheKey req) = Normal v -> truthy v = true ->
  store (expiry_key req) = Normal rec ->
  run w req
  = (Normal tt,
     hit_trace w req (cacheTTL_of w (opt_chain_get rec "exp")) v).
Proof.
  intros Ha Hs Hr Hv Hx. rewrite (run_active _ _ _ Ha), Hs.
  unfold try_catch at 1. unfold getCacheValue at 1. rewrite Hr, Hv.
  unfold try_catch, bind at 1, getCacheValue. rewrite Hx.
  unfold ret, res_setHeader, res_json, emit, bind.
  rewrite set_status_run. unfold hit_trace. cbn.
  reflexivity.
Qed.

(** Every run ends normally, along one of the branches. *)
Lemma run_branch (w : World) (req : Request) :
  exists t, run w req = (Normal tt, t) /\ branch w req t.
Proof.
  destruct (mutating_verb_bypass req) eqn:Hb.
  { eexists; split; [now apply run_verb_bypass | constructor; unfold early_exit; auto]. }
  destruct (strict_eq_true (CACHE_ENABLED w)) eqn:He.
  2:{ eexists; split; [now apply run_disabled | constructor; unfold early_exit; auto]. }
  destruct (cache w) as [store|] eqn:Hc.
  2:{ eexists; split; [now apply run_no_store | constructor; unfold early_exit; auto]. }
  assert (Ha : active w req store).
  { repeat split; auto. unfold strict_eq_true in He.
    destruct (CACHE_ENABLED w) as [| |[|]| | | |]; congruence. }
  destruct (shouldSkipCache req) eqn:Hs.
  { eexists; split; [apply (run_skip _ _ store); eassumption | apply (BrSkip _ _ store); eassumption]. }
  destruct (store (getCacheKey req)) as [v|e] eqn:Hr.
  2:{ eexists; split; [apply (run_payload_error _ _ store); eassumption
                      | apply (BrPayloadError _ _ store); eassumption]. }
  destruct (truthy v) eqn:Hv.
  2:{ eexists; split; [apply (run_payload_absent _ _ store v); eassumption
                      | apply (BrPayloadAbsent _ _ store v); eassumption]. }
  destruct (store (expiry_key req)) as [rec|e] eqn:Hx.
  - eexists; split; [apply (run_served _ _ store v rec); eassumption
                    | apply (BrServed _ _ store v rec); eassumption].
  - eexists; split; [apply (run_expiry_error _ _ store v e); eassumption
                    | apply (BrExpiryError _ _ store v e); eassumption].
Qed.

Lemma active_not_bypassed (w : World) (req : Request) (store : Keyv) :
  active w req store -> ~ early_exit w req.
Proof.
  intros (Hb & He & Hc) [H1 | [H1 | H1]]; try congruence.
  rewrite He in H1. discriminate.
Qed.

Lemma status_events_headers (w : World) (status : string) (e : event) :
  In e (status_events w status) -> is_set_header e = true.
Proof.
  unfold status_events. destruct (CACHE_STATUS_HEADER w) as [h|]; [|easy].
  destruct (negb (h =? "")); [|easy]. intros [<- | []]. reflexivity.
Qed.

Lemma filter_status_events (p : event -> bool) (w : World) (status : string) :
  (forall n v, p (SetHeader n v) = false) ->
  filter p (status_events w status) = [].
Proof.
  intros Hp. unfold status_events.
  destruct (CACHE_STATUS_HEADER w) as [h|]; [|easy].
  destruct (negb (h =? "")); [|easy]. cbn. now rewrite Hp.
Qed.

(** Counting events of one kind in a trace built around the status header. *)
Ltac count_trace :=
  unfold trace_of, count, hit_trace, miss_trace; cbn [fst snd];
  rewrite ?filter_app, ?filter_status_events by easy;
  cbn; try reflexivity.

(** A trace that ends in the status header and [next] sends no body. *)
Ltac no_body_sent Hin Hst :=
  cbn in Hin;
  repeat (destruct Hin as [Hin | Hin]; [discriminate|]);
  apply in_app_or in Hin;
  destruct Hin as [Hin | [Hin | []]];
  [now apply Hst in Hin | discriminate].

Lemma run_early_exit (w : World) (req : Request) :
  early_exit w req -> run w req = (Normal tt, [CallNext]).
Proof.
  intros [Hb | [He | Hc]];
    [now apply run_verb_bypass | now apply run_disabled | now apply run_no_store].
Qed.

Lemma status_events_configured (w : World) (h status : string) :
  CACHE_STATUS_HEADER w = Some h -> h <> "" ->
  status_events w status = [SetHeader h status].
Proof.
  intros Hh Hne. unfold status_events. rewrite Hh.
  destruct (String.eqb_spec h ""); [contradiction | reflexivity].
Qed.

(** The first guard fires exactly on a verb other than GET whose URL is
    present and does not start with /graphql. *)
Lemma mutating_verb_bypass_spec (req : Request) :
  mutating_verb_bypass req = true <->
  toLowerCase (method req) <> "get"
  /\ exists u, originalUrl req = Some u /\ String.prefix "/graphql" u = false.
Proof.
  unfold mutating_verb_bypass, opt_startsWith, strict_eq_false.
  rewrite andb_true_iff, negb_true_iff, String.eqb_neq. split.
  - intros [Hm Hu]. split; [exact Hm|].
    destruct (originalUrl req) as [u|]; [|discriminate].
    exists u. split; [reflexivity|].
    destruct (String.prefix "/graphql" u); [discriminate | reflexivity].
  - intros [Hm (u & Hu & Hp)]. split; [exact Hm|]. now rewrite Hu, Hp.
Qed.

(** C10. On the three earliest pass-through branches (a verb other than GET
    on a URL outside /graphql, CACHE_ENABLED not true, no store object) the
    handler calls [next] and nothing else: no header is set.  The
    explicit-skip, store-error and payload-absent branches, in contrast, end
    with the diagnostic header set to MISS (when configured) before [next]. *)
Theorem early_pass_through_sets_no_header (w : World) (req : Request) :
  ((toLowerCase (method req) <> "get"
    /\ exists u, originalUrl req = Some u
                 /\ String.prefix "/graphql" u = false)
   \/ CACHE_ENABLED w <> JBool true
   \/ cache w = None ->
   run w req = (Normal tt, [CallNext]))
  /\ (forall store h,
        active w req store ->
        CACHE_STATUS_HEADER w = Some h -> h <> "" ->
        (shouldSkipCache req = true ->
         trace_of w req = [SetHeader h "MISS"; CallNext])
        /\ (forall e,
              shouldSkipCache req = false ->
              store (getCacheKey req) = Throw e ->
              trace_of w req
              = [StoreGet (getCacheKey req);
                 LogWarn e (warn_text (getCacheKey req) e);
                 SetHeader h "MISS"; CallNext])
        /\ (forall v,
              shouldSkipCache req = false ->
              store (getCacheKey req) = Normal v -> truthy v = false ->
              trace_of w req
              = [StoreGet (getCacheKey req); SetHeader h "MISS"; CallNext])).
Proof.
  split.
  - intros Hearly. apply run_early_exit.
    destruct Hearly as [Hv | [He | Hc]].
    + left. now apply mutating_verb_bypass_spec.
    + right; left. unfold strict_eq_true.
      destruct (CACHE_ENABLED w) as [| |[|]| | | |]; congruence.
    + right; right. exact Hc.
  - intros store h Ha Hh Hne. unfold trace_of.
    pose proof (status_events_configured w h "MISS" Hh Hne) as Hst.
    repeat split.
    + intros Hs. rewrite (run_skip _ _ _ Ha Hs). cbn. now rewrite Hst.
    + intros e Hs Hr. rewrite (run_payload_error _ _ _ _ Ha Hs Hr). cbn.
      now rewrite Hst.
    + intros v Hs Hr Hv. rewrite (run_payload_absent _ _ _ _ Ha Hs Hr Hv).
      unfold miss_trace. cbn. now rewrite Hst.
Qed.

(** C5. A request for which [shouldSkipCache] is true is passed through
    without any store read, whatever the store holds; once the gate is past
    its first three guards the trace is the MISS status header (when
    configured) followed by [next]. *)
Theorem skip_signal_bypasses_store (w : World) (req : Request) :
  shouldSkipCache req = true ->
  fst (run w req) = Normal tt
  /\ count is_store_get (trace_of w req) = 0
  /\ count is_send (trace_of w req) = 0
  /\ count is_next (trace_of w req) = 1
  /\ (forall store,
        active w req store ->
        trace_of w req = status_events w "MISS" ++ [CallNext])
  /\ (forall store h,
        active w req store ->
        CACHE_STATUS_HEADER w = Some h -> h <> "" ->
        trace_of w req = [SetHeader h "MISS"; CallNext]).
Proof.
  intros Hs.
  assert (Hcases : run w req = (Normal tt, [CallNext])
                   \/ run w req
                      = (Normal tt, status_events w "MISS" ++ [CallNext])).
  { destruct (run_branch w req) as (t & Hrun & Hbr).
    destruct Hbr; try congruence; [left | right]; exact Hrun. }
  unfold trace_of, count.
  split; [destruct Hcases as [-> | ->]; reflexivity|].
  do 3 (split; [destruct Hcases as [-> | ->]; now count_trace|]).
  split.
  - intros store Ha. now rewrite (run_skip _ _ _ Ha Hs).
  - intros store h Ha Hh Hne. rewrite (run_skip _ _ _ Ha Hs). cbn [snd].
    now rewrite (status_events_configured w h "MISS" Hh Hne).
Qed.

(** C2. When a store read throws (the payload read, or the expiry-record
    read after a payload was found), the handler itself ends normally: it
    logs one warning carrying the error, sets the diagnostic header to MISS
    when one is configured, and calls [next]; nothing is sent. *)
Theorem store_read_error_fails_open (w : World) (req : Request)
  (store : Keyv) (e : JsError) :
  active w req store -> shouldSkipCache req = false ->
  (store (getCacheKey req) = Throw e ->
   run w req
   = (Normal tt,
      [StoreGet (getCacheKey req);
       LogWarn e (warn_text (getCacheKey req) e)]
      ++ status_events w "MISS" ++ [CallNext]))
  /\ (forall v,
        store (getCacheKey req) = Normal v -> truthy v = true ->
        store (expiry_key req) = Throw e ->
        run w req
        = (Normal tt,
           [StoreGet (getCacheKey req);
            StoreGet (expiry_key req);
            LogWarn e (warn_text (expiry_key req) e)]
           ++ status_events w "MISS" ++ [CallNext]))
  /\ (forall h,
        CACHE_STATUS_HEADER w = Some h -> h <> "" ->
        status_events w "MISS" = [SetHeader h "MISS"])
  /\ (store (getCacheKey req) = Throw e
      \/ (exists v, store (getCacheKey req) = Normal v /\ truthy v = true
                    /\ store (expiry_key req) = Throw e) ->
      fst (run w req) = Normal tt
      /\ count is_warn (trace_of w req) = 1
      /\ count is_next (trace_of w req) = 1
      /\ count is_send (trace_of w req) = 0).
Proof.
  intros Ha Hs. split; [|split; [|split]].
  - intros Hr. now apply (run_payload_error _ _ store).
  - intros v Hr Hv Hx. now apply (run_expiry_error _ _ store v).
  - intros h Hh Hne. now apply status_events_configured.
  - unfold trace_of, count.
    intros [Hr | (v & Hr & Hv & Hx)].
    + rewrite (run_payload_error _ _ _ _ Ha Hs Hr). count_trace. easy.
    + rewrite (run_expiry_error _ _ _ _ _ Ha Hs Hr Hv Hx). count_trace. easy.
Qed.

(** C4. Whenever the handler sends a body, that body is the stored payload,
    and the calls it made are, in order: the two store reads, Cache-Control
    set to [getCacheControlHeader(req, cacheTTL, true, true)], Vary set to
    "Origin, Cache-Control", the diagnostic header set to HIT when one is
    configured, and [res.json]; [next] is not called.  The [cacheTTL] handed
    to the Cache-Control computation is the remaining time: the timestamp
    under [exp] in the expiry record minus the clock, and undefined when the
    record is missing or carries no [exp]. *)
Theorem served_from_cache_response (w : World) (req : Request)
  (body : jsval) :
  In (SendJson body) (trace_of w req) ->
  exists store rec cacheTTL,
    active w req store
    /\ store (getCacheKey req) = Normal body
    /\ store (getCacheKey req ++ "__expires_at")%string = Normal rec
    /\ run w req
       = (Normal tt,
          [StoreGet (getCacheKey req);
           StoreGet (getCacheKey req ++ "__expires_at")%string;
           SetHeader "Cache-Control"
             (getCacheControlHeader req cacheTTL true true);
           SetHeader "Vary" "Origin, Cache-Control"]
          ++ status_events w "HIT" ++ [SendJson body])
    /\ (forall props e,
          rec = JObj props -> get_prop "exp" props = JNum e -> e <> 0%Z ->
          cacheTTL = JNum (e - now w))
    /\ (rec = JUndefined -> cacheTTL = JUndefined)
    /\ (forall props,
          rec = JObj props -> get_prop "exp" props = JUndefined ->
          cacheTTL = JUndefined)
    /\ (forall h,
          CACHE_STATUS_HEADER w = Some h -> h <> "" ->
          status_events w "HIT" = [SetHeader h "HIT"])
    /\ count is_next (trace_of w req) = 0.
Proof.
  unfold trace_of. intros Hin.
  destruct (run_branch w req) as (t & Hrun & Hbr). rewrite Hrun in *.
  cbn [snd] in Hin.
  assert (Hst : forall st, ~ In (SendJson body) (status_events w st)).
  { intros st Hi. now apply status_events_headers in Hi. }
  destruct Hbr as [ | | | | | store v rec Ha Hs Hr Hv Hx];
    try (unfold miss_trace in Hin; no_body_sent Hin Hst).
  - destruct Hin as [Hin | []]; discriminate.
  - assert (body = v) as ->.
    { unfold hit_trace in Hin. cbn in Hin.
      destruct Hin as [Hin | [Hin | [Hin | [Hin | Hin]]]]; try discriminate.
      apply in_app_or in Hin. destruct Hin as [Hin | [Hin | []]];
        [now apply Hst in Hin | congruence]. }
    exists store, rec, (cacheTTL_of w (opt_chain_get rec "exp")).
    split; [exact Ha|]. split; [exact Hr|]. split; [exact Hx|].
    split; [reflexivity|].
    split; [|split; [|split; [|split]]].
    + intros props e -> He Hne. cbn [opt_chain_get]. rewrite He.
      unfold cacheTTL_of, truthy, js_minus, to_number.
      destruct (Z.eqb_spec e 0); [contradiction | reflexivity].
    + intros ->. reflexivity.
    + intros props -> He. cbn [opt_chain_get]. now rewrite He.
    + intros h Hh Hne. now apply status_events_configured.
    + count_trace.
Qed.

(** C9. A request with a verb other than GET and an undefined [originalUrl]
    does not take the mutating-verb exit: with the cache enabled and a store
    present it reaches the skip policy, and unless that fires, the first
    thing the handler does is read the store under the request's key. *)
Theorem undefined_url_defeats_verb_bypass (w : World) (req : Request)
  (store : Keyv) :
  toLowerCase (method req) <> "get" -> originalUrl req = None ->
  mutating_verb_bypass req = false
  /\ (CACHE_ENABLED w = JBool true -> cache w = Some store ->
      (shouldSkipCache req = true ->
       trace_of w req = status_events w "MISS" ++ [CallNext])
      /\ (shouldSkipCache req = false ->
          exists rest, trace_of w req = StoreGet (getCacheKey req) :: rest)).
Proof.
  intros Hm Hu.
  assert (Hb : mutating_verb_bypass req = false).
  { unfold mutating_verb_bypass. rewrite Hu. cbn. apply andb_false_r. }
  split; [exact Hb|]. intros He Hc.
  assert (Ha : active w req store) by (repeat split; assumption).
  unfold trace_of. split; intros Hs.
  - now rewrite (run_skip _ _ _ Ha Hs).
  - destruct (run_branch w req) as (t & Hrun & Hbr). rewrite Hrun. cbn [snd].
    destruct Hbr; try congruence; try (eexists; reflexivity).
    now destruct (active_not_bypassed _ _ _ Ha).
Qed.

Lemma cacheTTL_of_timestamp (w : World) (e : Z) :
  e <> 0%Z -> cacheTTL_of w (JNum e) = JNum (e - now w).
Proof.
  intros He. unfold cacheTTL_of, truthy, js_minus, to_number.
  destruct (Z.eqb_spec e 0); [contradiction | reflexivity].
Qed.

Lemma cacheTTL_of_undefined (w : World) :
  cacheTTL_of w JUndefined = JUndefined.
Proof. reflexivity. Qed.

(** C6. Once a payload is found under the request's key, the store is read
    exactly twice: under the key, then under the key followed by
    "__expires_at".  When that second read yields a record whose [exp] is a
    (non-zero) timestamp, the TTL handed to the Cache-Control computation is
    that timestamp minus the clock value read by the handler. *)
Theorem expiry_record_key_and_ttl (w : World) (req : Request)
  (store : Keyv) (v : jsval) :
  active w req store -> shouldSkipCache req = false ->
  store (getCacheKey req) = Normal v -> truthy v = true ->
  filter is_store_get (trace_of w req)
  = [StoreGet (getCacheKey req);
     StoreGet (getCacheKey req ++ "__expires_at")%string]
  /\ (forall props e,
        store (getCacheKey req ++ "__expires_at")%string = Normal (JObj props) ->
        get_prop "exp" props = JNum e -> e <> 0%Z ->
        cacheTTL_of w (opt_chain_get (JObj props) "exp") = JNum (e - now w)
        /\ nth_error (trace_of w req) 2
           = Some (SetHeader "Cache-Control"
                     (getCacheControlHeader req (JNum (e - now w)) true true))).
Proof.
  intros Ha Hs Hr Hv. unfold trace_of. split.
  - destruct (store (expiry_key req)) as [rec|e] eqn:Hx.
    + rewrite (run_served _ _ _ _ _ Ha Hs Hr Hv Hx). cbn [snd].
      unfold hit_trace. rewrite !filter_app, filter_status_events by easy.
      reflexivity.
    + rewrite (run_expiry_error _ _ _ _ _ Ha Hs Hr Hv Hx). cbn [snd].
      rewrite !filter_app, filter_status_events by easy. reflexivity.
  - intros props e Hx He Hne.
    assert (Httl : cacheTTL_of w (opt_chain_get (JObj props) "exp")
                   = JNum (e - now w)).
    { cbn [opt_chain_get]. rewrite He. now apply cacheTTL_of_timestamp. }
    split; [exact Httl|].
    rewrite (run_served _ _ _ _ _ Ha Hs Hr Hv Hx). cbn [snd].
    unfold hit_trace. cbn [nth_error app]. now rewrite Httl.
Qed.

(** C1 (as the code has it). A payload found under the request's key is
    served with status HIT whatever its expiry record says: when the record
    is missing the TTL handed to the Cache-Control computation is undefined,
    and when its timestamp is not in the future the TTL is the non-positive
    difference (undefined for a zero timestamp).  The run is never the one
    of a payload that is not in the store. *)
Theorem stale_entry_still_served (w : World) (req : Request)
  (store : Keyv) (v : jsval) :
  active w req store -> shouldSkipCache req = false ->
  store (getCacheKey req) = Normal v -> truthy v = true ->
  expiry_absent store req \/ expiry_passed w store req ->
  exists ttl,
    run w req = (Normal tt, hit_trace w req ttl v)
    /\ (expiry_absent store req -> ttl = JUndefined)
    /\ (forall props e,
          store (expiry_key req) = Normal (JObj props) ->
          get_prop "exp" props = JNum e ->
          ttl = if (e =? 0)%Z then JUndefined else JNum (e - now w))
    /\ In (SendJson v) (trace_of w req)
    /\ count is_next (trace_of w req) = 0
    /\ run w req <> (Normal tt, miss_trace w (getCacheKey req)).
Proof.
  intros Ha Hs Hr Hv Hstale.
  assert (Hx : exists rec, store (expiry_key req) = Normal rec).
  { destruct Hstale as [Habs | (props & e & Hx & _)]; eauto. }
  destruct Hx as (rec & Hx).
  exists (cacheTTL_of w (opt_chain_get rec "exp")).
  pose proof (run_served _ _ _ _ _ Ha Hs Hr Hv Hx) as Hrun.
  split; [exact Hrun|]. split; [|split; [|split; [|split]]].
  - unfold expiry_absent. intros Habs. rewrite Hx in Habs.
    injection Habs as ->. reflexivity.
  - intros props e Hx' He. rewrite Hx in Hx'. injection Hx' as ->.
    cbn [opt_chain_get]. rewrite He.
    destruct (Z.eqb_spec e 0) as [-> | Hne]; [reflexivity|].
    now apply cacheTTL_of_timestamp.
  - unfold trace_of. rewrite Hrun. cbn [snd]. unfold hit_trace.
    apply in_or_app. right. apply in_or_app. right. now left.
  - unfold trace_of, count. rewrite Hrun. cbn [snd]. unfold hit_trace.
    rewrite !filter_app, filter_status_events by easy. reflexivity.
  - rewrite Hrun. unfold hit_trace, miss_trace. intros Heq.
    injection Heq as Heq. apply (f_equal (filter is_store_get)) in Heq.
    rewrite !filter_app, !filter_status_events in Heq by easy.
    discriminate.
Qed.

End Facts.

(** ** The handler on concrete requests *)

Lemma get_items_active (store : Keyv) :
  active (sample_world (Some store)) get_items store.
Proof. repeat split. Defined.

Example run_fresh_entry :
  run (sample_world (Some store_fresh)) get_items
  = (Normal tt,
     [StoreGet "/items"; StoreGet "/items__expires_at";
      SetHeader "Cache-Control" "max-age";
      SetHeader "Vary" "Origin, Cache-Control";
      SetHeader "X-Cache-Status" "HIT"; SendJson sample_payload]).
Proof. reflexivity. Qed.

Example run_store_down :
  run (sample_world (Some store_down)) get_items
  = (Normal tt,
     [StoreGet "/items";
      LogWarn (mkError "ECONNREFUSED")
        "[cache] Couldn't read key /items. ECONNREFUSED";
      SetHeader "X-Cache-Status" "MISS"; CallNext]).
Proof. reflexivity. Qed.

(** C1, as stated, fails: a payload whose expiry record is missing, and a
    payload whose expiry timestamp (1000) lies before the clock (2000), are
    both sent with status HIT; neither run is that of a miss. *)
Lemma stale_entry_served_counterexample :
  run (sample_world (Some store_without_expiry)) get_items
  = (Normal tt,
     [StoreGet "/items"; StoreGet "/items__expires_at";
      SetHeader "Cache-Control" "no-cache";
      SetHeader "Vary" "Origin, Cache-Control";
      SetHeader "X-Cache-Status" "HIT"; SendJson sample_payload])
  /\ run (sample_world (Some store_expired)) get_items
     = (Normal tt,
        [StoreGet "/items"; StoreGet "/items__expires_at";
         SetHeader "Cache-Control" "max-age";
         SetHeader "Vary" "Origin, Cache-Control";
         SetHeader "X-Cache-Status" "HIT"; SendJson sample_payload])
  /\ ~ stale_means_miss (sample_world (Some store_without_expiry)) get_items
         store_without_expiry
  /\ ~ stale_means_miss (sample_world (Some store_expired)) get_items
         store_expired.
Proof.
  split; [reflexivity|]. split; [reflexivity|]. split.
  - intros Hclaim.
    specialize (Hclaim sample_payload (get_items_active _) eq_refl eq_refl
                  eq_refl (or_introl eq_refl)).
    discriminate Hclaim.
  - intros Hclaim.
    assert (Hpassed : expiry_passed (sample_world (Some store_expired))
                        store_expired get_items).
    { exists [("exp", JNum 1000)], 1000%Z. repeat split. discriminate. }
    specialize (Hclaim sample_payload (get_items_active _) eq_refl eq_refl
                  eq_refl (or_intror Hpassed)).
    discriminate Hclaim.
Qed.

Lemma stale_entry_still_served_witness :
  exists ttl,
    run (sample_world (Some store_expired)) get_items
    = (Normal tt,
       hit_trace (sample_world (Some store_expired)) get_items ttl
         sample_payload)
    /\ (expiry_absent store_expired get_items -> ttl = JUndefined)
    /\ (forall props e,
          store_expired (expiry_key get_items) = Normal (JObj props) ->
          get_prop "exp" props = JNum e ->
          ttl = if (e =? 0)%Z then JUndefined else JNum (e - 2000))
    /\ In (SendJson sample_payload)
         (trace_of (sample_world (Some store_expired)) get_items)
    /\ count is_next (trace_of (sample_world (Some store_expired)) get_items)
       = 0
    /\ run (sample_world (Some store_expired)) get_items
       <> (Normal tt,
           miss_trace (sample_world (Some store_expired))
             (getCacheKey get_items)).
Proof.
  apply (stale_entry_still_served (sample_world (Some store_expired))
           get_items store_expired sample_payload).
  - apply get_items_active.
  - reflexivity.
  - reflexivity.
  - reflexivity.
  - right. exists [("exp", JNum 1000)], 1000%Z.
    split; [reflexivity|]. split; [reflexivity|]. discriminate.
Defined.

Lemma store_read_error_fails_open_witness :
  run (sample_world (Some store_down)) get_items
  = (Normal tt,
     [StoreGet "/items";
      LogWarn (mkError "ECONNREFUSED")
        "[cache] Couldn't read key /items. ECONNREFUSED";
      SetHeader "X-Cache-Status" "MISS"; CallNext]).
Proof.
  apply (proj1 (store_read_error_fails_open
                  (sample_world (Some store_down)) get_items store_down
                  (mkError "ECONNREFUSED")
                  (get_items_active store_down) eq_refl)).
  reflexivity.
Defined.

Lemma served_from_cache_response_witness :
  run (sample_world (Some store_fresh)) get_items
  = (Normal tt,
     [StoreGet "/items"; StoreGet "/items__expires_at";
      SetHeader "Cache-Control"
        (getCacheControlHeader get_items (JNum 7000) true true);
      SetHeader "Vary" "Origin, Cache-Control";
      SetHeader "X-Cache-Status" "HIT"; SendJson sample_payload])
  /\ getCacheControlHeader get_items (JNum 7000) true true
     <> getCacheControlHeader get_items JUndefined true true
  /\ count is_next (trace_of (sample_world (Some store_fresh)) get_items) = 0.
Proof.
  assert (Hsent : In (SendJson sample_payload)
                    (trace_of (sample_world (Some store_fresh)) get_items)).
  { cbn. do 5 right. left. reflexivity. }
  destruct (served_from_cache_response (sample_world (Some store_fresh))
              get_items sample_payload Hsent)
    as (store & rec & cacheTTL & Ha & _ & Hx & Hrun & Hnum & _ & _ & Hhit
        & Hnext).
  destruct Ha as (_ & _ & Hc). injection Hc as <-.
  injection Hx as <-.
  rewrite (Hnum [("exp", JNum 9000)] 9000%Z eq_refl eq_refl) in Hrun
    by discriminate.
  rewrite (Hhit "X-Cache-Status" eq_refl) in Hrun by discriminate.
  split; [exact Hrun|]. split; [discriminate | exact Hnext].
Defined.

Lemma skip_signal_bypasses_store_witness :
  fst (run (sample_world (Some store_fresh)) get_items_no_cache) = Normal tt
  /\ trace_of (sample_world (Some store_fresh)) get_items_no_cache
     = [SetHeader "X-Cache-Status" "MISS"; CallNext].
Proof.
  destruct (skip_signal_bypasses_store (H := sample_deps)
              (sample_world (Some store_fresh)) get_items_no_cache eq_refl)
    as (Hok & _ & _ & _ & _ & Hhdr).
  split; [exact Hok|].
  apply (Hhdr store_fresh "X-Cache-Status").
  - repeat split.
  - reflexivity.
  - discriminate.
Defined.

Lemma expiry_record_key_and_ttl_witness :
  filter is_store_get (trace_of (sample_world (Some store_fresh)) get_items)
  = [StoreGet "/items"; StoreGet "/items__expires_at"]
  /\ cacheTTL_of (sample_world (Some store_fresh))
       (opt_chain_get (JObj [("exp", JNum 9000)]) "exp")
     = JNum 7000.
Proof.
  destruct (expiry_record_key_and_ttl (sample_world (Some store_fresh))
              get_items store_fresh sample_payload
              (get_items_active store_fresh) eq_refl eq_refl eq_refl)
    as (Hreads & Httl).
  split; [exact Hreads|].
  apply (Httl [("exp", JNum 9000)] 9000%Z);
    [reflexivity | reflexivity | discriminate].
Defined.

Lemma undefined_url_defeats_verb_bypass_witness :
  mutating_verb_bypass post_no_url = false
  /\ exists rest,
       trace_of (sample_world (Some store_fresh)) post_no_url
       = StoreGet "" :: rest.
Proof.
  destruct (undefined_url_defeats_verb_bypass
              (sample_world (Some store_fresh)) post_no_url store_fresh)
    as (Hb & Hrest).
  - discriminate.
  - reflexivity.
  - split; [exact Hb|].
    apply (proj2 (Hrest eq_refl eq_refl)). reflexivity.
Defined.

Lemma early_pass_through_sets_no_header_witness :
  run (sample_world (Some store_fresh)) post_items = (Normal tt, [CallNext])
  /\ run (mkWorld (JStr "true") (Some "X-Cache-Status") (Some store_fresh) 2000)
       get_items
     = (Normal tt, [CallNext])
  /\ run (sample_world None) get_items = (Normal tt, [CallNext]).
Proof.
  split; [|split].
  - apply (proj1 (early_pass_through_sets_no_header
                    (sample_world (Some store_fresh)) post_items)).
    left. split; [discriminate|]. exists "/items". split; reflexivity.
  - apply (proj1 (early_pass_through_sets_no_header
                    (mkWorld (JStr "true") (Some "X-Cache-Status")
                       (Some store_fresh) 2000) get_items)).
    right; left. discriminate.
  - apply (proj1 (early_pass_through_sets_no_header
                    (sample_world None) get_items)).
    right; right. reflexivity.
Defined.

End GateFacts.

(** * Properties of the webhooks service *)

Module WebhooksFacts.
Import Js Webhooks.

Section Facts.

Context {DB Item MutationOptions PrimaryKey : Type}.
Context {items : ItemsService DB Item MutationOptions PrimaryKey}.
Context {messenger : Messenger}.

(** The shape the four overrides share. *)
Lemma override_run {A} (m : DB -> completion A * DB) (st : State) :
  bind (await_super m) (fun result =>
  bind (messenger_publish "webhooks" reload) (fun _ => ret result)) st
  = match m (db st) with
    | (Normal r, db') =>
      let st' := mkState db' (published st ++ [("webhooks", reload)]) in
      match publish_outcome "webhooks" reload (published st) with
      | Returns _ => (Normal r, st')
      | Throws e => (Throw e, st')
      end
    | (Throw e, db') => (Throw e, mkState db' (published st))
    end.
Proof.
  unfold bind, await_super, messenger_publish, ret.
  destruct (m (db st)) as [[r | e] db']; cbn; [|reflexivity].
  now destruct (publish_outcome "webhooks" reload (published st)).
Qed.

Lemma override_published {A} (m : DB -> completion A * DB) (st : State) :
  published
    (snd (bind (await_super m) (fun result =>
          bind (messenger_publish "webhooks" reload) (fun _ => ret result))
            st))
  = published st ++ expected_publications (fst (m (db st))).
Proof.
  rewrite override_run.
  destruct (m (db st)) as [[r | e] db']; cbn.
  - now destruct (publish_outcome "webhooks" reload (published st)).
  - now rewrite app_nil_r.
Qed.

Lemma override_propagates {A} (m : DB -> completion A * DB) (st : State)
  (e : JsError) :
  fst (m (db st)) = Throw e ->
  fst (bind (await_super m) (fun result =>
       bind (messenger_publish "webhooks" reload) (fun _ => ret result)) st)
  = Throw e.
Proof.
  rewrite override_run.
  destruct (m (db st)) as [[r | e'] db']; cbn; [discriminate | congruence].
Qed.

(** C3. Each of createOne, createMany, updateMany and deleteMany calls
    [messenger.publish('webhooks', { type: 'reload' })] exactly once when the
    inherited mutation succeeds, and not at all when it throws, in which
    case the error is propagated. *)
Theorem publish_once_per_successful_mutation (st : State) :
  (forall data opts,
     published (snd (createOne data opts st))
     = published st
       ++ expected_publications (fst (super_createOne data opts (db st)))
     /\ (forall e, fst (super_createOne data opts (db st)) = Throw e ->
                   fst (createOne data opts st) = Throw e))
  /\ (forall data opts,
        published (snd (createMany data opts st))
        = published st
          ++ expected_publications (fst (super_createMany data opts (db st)))
        /\ (forall e, fst (super_createMany data opts (db st)) = Throw e ->
                      fst (createMany data opts st) = Throw e))
  /\ (forall keys data opts,
        published (snd (updateMany keys data opts st))
        = published st
          ++ expected_publications
               (fst (super_updateMany keys data opts (db st)))
        /\ (forall e, fst (super_updateMany keys data opts (db st)) = Throw e ->
                      fst (updateMany keys data opts st) = Throw e))
  /\ (forall keys opts,
        published (snd (deleteMany keys opts st))
        = published st
          ++ expected_publications (fst (super_deleteMany keys opts (db st)))
        /\ (forall e, fst (super_deleteMany keys opts (db st)) = Throw e ->
                      fst (deleteMany keys opts st) = Throw e)).
Proof.
  repeat split; intros;
    first [apply override_published | now apply override_propagates].
Qed.

(** C7 (as the code has it). When the inherited mutation succeeds and the
    publish call returns, each override returns the mutation's result
    unchanged, also if what publish returned rejects later: the call is not
    awaited.  When the publish call throws, each of the four overrides
    throws that error, although the mutation has been applied. *)
Theorem mutation_result_when_publish_returns (st : State) :
  (forall later,
     publish_outcome "webhooks" reload (published st) = Returns later ->
     (forall data opts r db',
        super_createOne data opts (db st) = (Normal r, db') ->
        fst (createOne data opts st) = Normal r)
     /\ (forall data opts r db',
           super_createMany data opts (db st) = (Normal r, db') ->
           fst (createMany data opts st) = Normal r)
     /\ (forall keys data opts r db',
           super_updateMany keys data opts (db st) = (Normal r, db') ->
           fst (updateMany keys data opts st) = Normal r)
     /\ (forall keys opts r db',
           super_deleteMany keys opts (db st) = (Normal r, db') ->
           fst (deleteMany keys opts st) = Normal r))
  /\ (forall e,
        publish_outcome "webhooks" reload (published st) = Throws e ->
        (forall data opts r db',
           super_createOne data opts (db st) = (Normal r, db') ->
           createOne data opts st
           = (Throw e,
              mkState db' (published st ++ [("webhooks", reload)])))
        /\ (forall data opts r db',
              super_createMany data opts (db st) = (Normal r, db') ->
              createMany data opts st
              = (Throw e,
                 mkState db' (published st ++ [("webhooks", reload)])))
        /\ (forall keys data opts r db',
              super_updateMany keys data opts (db st) = (Normal r, db') ->
              updateMany keys data opts st
              = (Throw e,
                 mkState db' (published st ++ [("webhooks", reload)])))
        /\ (forall keys opts r db',
              super_deleteMany keys opts (db st) = (Normal r, db') ->
              deleteMany keys opts st
              = (Throw e,
                 mkState db' (published st ++ [("webhooks", reload)])))).
Proof.
  split.
  - intros later Hp.
    repeat split; intros;
      match goal with
      | Hm : _ = (Normal _, _) |- _ =>
        unfold createOne, createMany, updateMany, deleteMany;
        rewrite override_run, Hm; cbn; now rewrite Hp
      end.
  - intros e Hp.
    repeat split; intros;
      match goal with
      | Hm : _ = (Normal _, _) |- _ =>
        unfold createOne, createMany, updateMany, deleteMany;
        rewrite override_run, Hm; cbn; now rewrite Hp
      end.
Qed.

End Facts.

Example createOne_messenger_up :
  createOne (items := sample_items) (messenger := messenger_up)
    "hook" None empty_state
  = (Normal 0, mkState ["hook"] [("webhooks", reload)]).
Proof. reflexivity. Qed.

Example createOne_rejected_row :
  createOne (items := sample_items) (messenger := messenger_up)
    "" None empty_state
  = (Throw (mkError "invalid payload"), mkState [] []).
Proof. reflexivity. Qed.

Example deleteMany_messenger_up :
  deleteMany (items := sample_items) (messenger := messenger_up)
    [0] None (mkState ["hook"; "other"] [])
  = (Normal [0], mkState ["other"] [("webhooks", reload)]).
Proof. reflexivity. Qed.

Example deleteMany_unknown_key :
  deleteMany (items := sample_items) (messenger := messenger_up)
    [7] None (mkState ["hook"] [])
  = (Throw (mkError "forbidden"), mkState ["hook"] []).
Proof. reflexivity. Qed.

Example updateMany_publish_rejects_later :
  updateMany (items := sample_items) (messenger := messenger_rejecting)
    [1] "changed" None (mkState ["hook"; "other"] [])
  = (Normal [1], mkState ["hook"; "changed"] [("webhooks", reload)]).
Proof. reflexivity. Qed.

(** C7, as stated, fails: with a messenger whose publish throws, createOne
    inserts the row and then throws instead of returning the new key. *)
Lemma publish_throw_fails_mutation_counterexample :
  super_createOne (ItemsService := sample_items) "hook" None []
  = (Normal 0, ["hook"])
  /\ createOne (items := sample_items) (messenger := messenger_throwing)
       "hook" None empty_state
     = (Throw (mkError "bus unavailable"),
        mkState ["hook"] [("webhooks", reload)])
  /\ ~ publish_failure_tolerated (items := sample_items)
         (messenger := messenger_throwing) "hook" None empty_state.
Proof.
  split; [reflexivity|]. split; [reflexivity|].
  intros Hclaim. specialize (Hclaim 0 ["hook"] eq_refl). discriminate Hclaim.
Qed.

Lemma publish_once_per_successful_mutation_witness :
  published
    (snd (createOne (items := sample_items) (messenger := messenger_up)
            "hook" None empty_state))
  = [("webhooks", reload)]
  /\ published
       (snd (createOne (items := sample_items) (messenger := messenger_up)
               "" None empty_state))
     = []
  /\ fst (createOne (items := sample_items) (messenger := messenger_up)
            "" None empty_state)
     = Throw (mkError "invalid payload").
Proof.
  destruct (publish_once_per_successful_mutation (items := sample_items)
              (messenger := messenger_up) empty_state) as (Hone & _).
  split; [exact (proj1 (Hone "hook" None))|].
  split; [exact (proj1 (Hone "" None))|].
  exact (proj2 (Hone "" None) (mkError "invalid payload") eq_refl).
Defined.

Lemma mutation_result_when_publish_returns_witness :
  fst (createOne (items := sample_items) (messenger := messenger_rejecting)
         "hook" None empty_state)
  = Normal 0
  /\ fst (deleteMany (items := sample_items) (messenger := messenger_up)
            [0] None (mkState ["hook"] []))
     = Normal [0]
  /\ updateMany (items := sample_items) (messenger := messenger_throwing)
       [0] "changed" None (mkState ["hook"] [])
     = (Throw (mkError "bus unavailable"),
        mkState ["changed"] [("webhooks", reload)])
  /\ deleteMany (items := sample_items) (messenger := messenger_throwing)
       [0] None (mkState ["hook"] [])
     = (Throw (mkError "bus unavailable"),
        mkState [] [("webhooks", reload)]).
Proof.
  split; [|split; [|split]].
  - destruct (mutation_result_when_publish_returns (items := sample_items)
                (messenger := messenger_rejecting) empty_state) as (Hret & _).
    destruct (Hret (Throw (mkError "bus unavailable")) eq_refl)
      as (Hone & _).
    exact (Hone "hook" None 0 ["hook"] eq_refl).
  - destruct (mutation_result_when_publish_returns (items := sample_items)
                (messenger := messenger_up) (mkState ["hook"] []))
      as (Hret & _).
    destruct (Hret (Normal tt) eq_refl) as (_ & _ & _ & Hdel).
    exact (Hdel [0] None [0] [] eq_refl).
  - destruct (mutation_result_when_publish_returns (items := sample_items)
                (messenger := messenger_throwing) (mkState ["hook"] []))
      as (_ & Hthrow).
    destruct (Hthrow (mkError "bus unavailable") eq_refl)
      as (_ & _ & Hupd & _).
    exact (Hupd [0] "changed" None [0] ["changed"] eq_refl).
  - destruct (mutation_result_when_publish_returns (items := sample_items)
                (messenger := messenger_throwing) (mkState ["hook"] []))
      as (_ & Hthrow).
    destruct (Hthrow (mkError "bus unavailable") eq_refl)
      as (_ & _ & _ & Hdel).
    exact (Hdel [0] None [0] [] eq_refl).
Defined.

End WebhooksFacts.

(** * Properties of the key deriver *)

Module KeyDeriverFacts.
Import KeyDeriver.

Section SortingFacts.

Variable A : Type.
Variable leb : A -> A -> bool.
Hypothesis leb_total : forall x y, leb x y = true \/ leb y x = true.
Hypothesis leb_antisym : forall x y, leb x y = true -> leb y x = true -> x = y.
Hypothesis leb_trans :
  forall x y z, leb x y = true -> leb y z = true -> leb x z = true.

Lemma insert_sorted_swap (x y : A) (l : list A) :
  insert_sorted leb x (insert_sorted leb y l)
  = insert_sorted leb y (insert_sorted leb x l).
Proof.
  induction l as [| z l IH]; cbn.
  - destruct (leb x y) eqn:Hxy, (leb y x) eqn:Hyx; try reflexivity.
    + now rewrite (leb_antisym x y Hxy Hyx).
    + destruct (leb_total x y); congruence.
  - destruct (leb x z) eqn:Hxz, (leb y z) eqn:Hyz; cbn;
      rewrite ?Hxz, ?Hyz.
    + destruct (leb x y) eqn:Hxy, (leb y x) eqn:Hyx; try reflexivity.
      * now rewrite (leb_antisym x y Hxy Hyx).
      * destruct (leb_total x y); congruence.
    + destruct (leb y x) eqn:Hyx; [|reflexivity].
      pose proof (leb_trans y x z Hyx Hxz). congruence.
    + destruct (leb x y) eqn:Hxy; [|reflexivity].
      pose proof (leb_trans x y z Hxy Hyz). congruence.
    + now rewrite IH.
Qed.

Lemma sort_by_permutation (l1 l2 : list A) :
  Permutation l1 l2 -> sort_by leb l1 = sort_by leb l2.
Proof.
  induction 1 as [| x l1 l2 _ IH | x y l | l1 l2 l3 _ IH1 _ IH2]; cbn.
  - reflexivity.
  - now rewrite IH.
  - apply insert_sorted_swap.
  - now rewrite IH1.
Qed.

End SortingFacts.

Lemma string_leb_iff (a b : string) :
  String.leb a b = true <-> a = b \/ String_as_OT.lt a b.
Proof.
  unfold String.leb. destruct (String.compare a b) eqn:Hc.
  - split; [intros _; left; now apply String_as_OT.cmp_eq | reflexivity].
  - split; [intros _; right; now apply String_as_OT.cmp_lt | reflexivity].
  - split; [discriminate|]. intros [Heq | Hlt].
    + apply String_as_OT.cmp_eq in Heq. unfold String_as_OT.cmp in Heq.
      congruence.
    + apply String_as_OT.cmp_lt in Hlt. unfold String_as_OT.cmp in Hlt.
      congruence.
Qed.

Lemma string_leb_trans (a b c : string) :
  String.leb a b = true -> String.leb b c = true -> String.leb a c = true.
Proof.
  rewrite !string_leb_iff. intros [-> | Hab] [-> | Hbc]; auto.
  right. now apply (String_as_OT.lt_trans a b c).
Qed.

Lemma param_leb_total (p q : string * string) :
  param_leb p q = true \/ param_leb q p = true.
Proof.
  unfold param_leb. rewrite (String.eqb_sym (fst q) (fst p)).
  destruct (fst p =? fst q)%string; apply String.leb_total.
Qed.

Lemma param_leb_antisym (p q : string * string) :
  param_leb p q = true -> param_leb q p = true -> p = q.
Proof.
  unfold param_leb. rewrite (String.eqb_sym (fst q) (fst p)).
  destruct p as [pn pv], q as [qn qv]; cbn.
  destruct (String.eqb_spec pn qn) as [-> | Hne]; intros H1 H2.
  - now rewrite (String.leb_antisym _ _ H1 H2).
  - now destruct (Hne (String.leb_antisym _ _ H1 H2)).
Qed.

Lemma param_leb_trans (p q r : string * string) :
  param_leb p q = true -> param_leb q r = true -> param_leb p r = true.
Proof.
  unfold param_leb.
  destruct p as [pn pv], q as [qn qv], r as [rn rv]; cbn.
  destruct (String.eqb_spec pn qn) as [-> | Hpq];
    destruct (String.eqb_spec qn rn) as [-> | Hqr]; intros H1 H2.
  - now apply (string_leb_trans pv qv rv).
  - exact H2.
  - destruct (String.eqb_spec pn rn); [contradiction | exact H1].
  - pose proof (string_leb_trans _ _ _ H1 H2) as H3.
    destruct (String.eqb_spec pn rn) as [-> | _]; [|exact H3].
    now destruct (Hpq (String.leb_antisym _ _ H1 H2)).
Qed.

(** The sorted query does not depend on the order the parameters came in. *)
Lemma sorted_query_permutation (q1 q2 : list (string * string)) :
  Permutation q1 q2 -> sort_by param_leb q1 = sort_by param_leb q2.
Proof.
  apply sort_by_permutation;
    [exact param_leb_total | exact param_leb_antisym | exact param_leb_trans].
Qed.

Lemma append_cancel_l (s a b : string) :
  (s ++ a = s ++ b)%string -> a = b.
Proof.
  induction s as [| c s IH]; cbn; [trivial|].
  intros Heq. injection Heq as Heq. now apply IH.
Qed.

Section DeriveFacts.

Variable identity_sensitive : string -> bool.

(** C8. Two requests with the same method, path and caller identity whose
    query parameters are the same up to order derive the same key; two
    requests to an identity-sensitive resource that differ only in the
    caller identity derive different keys. *)
Theorem deriveKey_canonical :
  (forall r1 r2,
     key_method r1 = key_method r2 -> key_path r1 = key_path r2 ->
     Permutation (key_query r1) (key_query r2) ->
     key_caller r1 = key_caller r2 ->
     deriveKey identity_sensitive r1 = deriveKey identity_sensitive r2)
  /\ (forall r1 r2,
        key_method r1 = key_method r2 -> key_path r1 = key_path r2 ->
        Permutation (key_query r1) (key_query r2) ->
        identity_sensitive (key_path r1) = true ->
        key_caller r1 <> key_caller r2 ->
        deriveKey identity_sensitive r1 <> deriveKey identity_sensitive r2).
Proof.
  split.
  - intros r1 r2 Hm Hp Hq Hc. unfold deriveKey.
    now rewrite Hm, Hp, Hc, (sorted_query_permutation _ _ Hq).
  - intros r1 r2 Hm Hp Hq Hs Hc Hkey. apply Hc. unfold deriveKey in Hkey.
    rewrite <- Hp, Hs, <- Hm, <- (sorted_query_permutation _ _ Hq) in Hkey.
    now repeat apply append_cancel_l in Hkey.
Qed.

End DeriveFacts.

Example deriveKey_items :
  deriveKey sample_policy
    (mkKeyRequest "GET" "/items" [("b", "2"); ("a", "1")] "alice")
  = "GET /items?a=1&b=2&#alice".
Proof. reflexivity. Qed.

Lemma deriveKey_canonical_witness :
  deriveKey sample_policy
    (mkKeyRequest "GET" "/items" [("a", "1"); ("b", "2")] "alice")
  = deriveKey sample_policy
      (mkKeyRequest "GET" "/items" [("b", "2"); ("a", "1")] "alice")
  /\ deriveKey sample_policy
       (mkKeyRequest "GET" "/items" [("a", "1"); ("b", "2")] "alice")
     <> deriveKey sample_policy
          (mkKeyRequest "GET" "/items" [("a", "1"); ("b", "2")] "bob").
Proof.
  destruct (deriveKey_canonical sample_policy) as (Hsame & Hdiff).
  split.
  - apply Hsame; try reflexivity. apply perm_swap.
  - apply Hdiff; try reflexivity. discriminate.
Defined.

End KeyDeriverFacts.

(** * Properties of the permissions controller *)

Module PermissionsFacts.
Import Permissions.

Section Facts.

Context {DB Query Accountability Schema : Type}.
Context {services : Services DB Query Accountability Schema}.

Local Abbreviation State := (@State DB Query).
Local Abbreviation Request := (@Request Query Accountability Schema).

Lemma added_app (st : State) (d : DB) (evs : list event) :
  added st (mkState d (log st ++ evs)) = evs.
Proof.
  unfold added. cbn [log]. rewrite skipn_app, skipn_all, Nat.sub_diag.
  reflexivity.
Qed.

Lemma added_nil (st : State) : added st st = [].
Proof. unfold added. apply skipn_all. Qed.

Lemma added_same_log (st : State) (d : DB) :
  added st (mkState d (log st)) = [].
Proof. unfold added. apply skipn_all. Qed.

(** Unfolding one run of a handler into its cases. *)
Ltac unfold_handlers :=
  unfold outcome_of, handler_of, post_handler, readHandler, get_pk_handler,
    patch_handler, patch_pk_handler, delete_handler, delete_pk_handler,
    forbidden_to_next, try_catch, bind, lift, await_call, set_payload, next,
    emit, ret, raise; cbn [db log].

Ltac split_run :=
  repeat (cbn beta iota zeta;
          match goal with
          | |- context [match ?x with _ => _ end] =>
            lazymatch x with
            | context [match _ with _ => _ end] => fail
            | _ => let E := fresh "E" in destruct x eqn:E
            end
          end);
  cbn [db log].

Ltac tidy_log :=
  rewrite <- ?app_assoc; cbn [app];
  rewrite ?added_app, ?added_nil, ?added_same_log.

(** Every handler calls [next] exactly once, as the last thing it does,
    when it completes, and not at all when it throws; it sets the payload
    at most once, and only on a run that completes. *)
Theorem handlers_call_next_once (r : route) (req : Request) (st : State) :
  let '(res, _, evs) := outcome_of (handler_of r req) st in
  match res with
  | Ok _ => exists pre, evs = pre ++ [Next] /\ count is_next pre = 0
  | Raise _ => count is_next evs = 0 /\ count is_set_payload evs = 0
  end
  /\ count is_set_payload evs <= 1.
Proof.
  destruct r; unfold_handlers; split_run; tidy_log.
  all: try (split; [split; reflexivity | cbn; auto]).
  all: split; [| cbn; auto].
  all: first [ now exists [] | now eexists [_] | now eexists [_; _]
             | now eexists [_; _; _] | now eexists [_; _; _; _] ].
Qed.

(** On POST /, PATCH / and PATCH /:pk a ForbiddenException never comes out
    of the read-back: when the handler throws it, no read was made (it came
    from the write or from the query sanitizer), and no run reads back more
    than once. *)
Theorem forbidden_never_from_read_back (r : route) (req : Request)
  (st : State) :
  is_write_route r = true ->
  let '(res, _, evs) := outcome_of (handler_of r req) st in
  (res = Raise ForbiddenException -> count is_read_call evs = 0)
  /\ count is_read_call evs <= 1.
Proof.
  destruct r; try discriminate; intros _; unfold_handlers; split_run;
    tidy_log; cbn; (split; [intros Hres | auto]); try reflexivity;
    try discriminate.
  all: injection Hres as ->; discriminate.
Qed.

(** POST / reads back exactly the keys the create call returned (the whole
    list for an array body, the single key otherwise) and puts what it read
    under [data]; when the read-back is forbidden the handler still
    completes: the rows stay created, no payload is set, [next] is
    called. *)
Theorem post_reads_back_created_keys (req : Request) (st : State) :
  (forall keys d1 r d2,
     isArray (body req) = true ->
     createMany (service_of req) (body req) (db st) = (Ok keys, d1) ->
     readMany (service_of req) (keys_value keys) (sanitizedQuery req) d1
     = (r, d2) ->
     outcome_of (post_handler req) st
     = match r with
       | Ok items =>
         (Ok tt, d2,
          [Called (CreateMany (body req));
           Called (ReadMany (keys_value keys) (sanitizedQuery req));
           SetPayload (VObj [("data", items)]); Next])
       | Raise ForbiddenException =>
         (Ok tt, d2,
          [Called (CreateMany (body req));
           Called (ReadMany (keys_value keys) (sanitizedQuery req)); Next])
       | Raise e =>
         (Raise e, d2,
          [Called (CreateMany (body req));
           Called (ReadMany (keys_value keys) (sanitizedQuery req))])
       end)
  /\ (forall key d1 r d2,
        isArray (body req) = false ->
        createOne (service_of req) (body req) (db st) = (Ok key, d1) ->
        readOne (service_of req) (key_value key) (sanitizedQuery req) d1
        = (r, d2) ->
        outcome_of (post_handler req) st
        = match r with
          | Ok item =>
            (Ok tt, d2,
             [Called (CreateOne (body req));
              Called (ReadOne (key_value key) (sanitizedQuery req));
              SetPayload (VObj [("data", item)]); Next])
          | Raise ForbiddenException =>
            (Ok tt, d2,
             [Called (CreateOne (body req));
              Called (ReadOne (key_value key) (sanitizedQuery req)); Next])
          | Raise e =>
            (Raise e, d2,
             [Called (CreateOne (body req));
              Called (ReadOne (key_value key) (sanitizedQuery req))])
          end).
Proof.
  split.
  - intros keys d1 r d2 Harr Hcreate Hread. unfold_handlers.
    rewrite Harr, Hcreate. cbn. rewrite Hread.
    destruct r as [items | []]; cbn; now tidy_log.
  - intros key d1 r d2 Harr Hcreate Hread. unfold_handlers.
    rewrite Harr, Hcreate. cbn. rewrite Hread.
    destruct r as [item | []]; cbn; now tidy_log.
Qed.

(** When the create call of POST / throws, the handler throws the same
    error: nothing is read back, no payload is set and [next] is not
    called. *)
Theorem post_create_failure_stops (req : Request) (st : State)
  (e : Exception) (d1 : DB) :
  (isArray (body req) = true ->
   createMany (service_of req) (body req) (db st) = (Raise e, d1) ->
   outcome_of (post_handler req) st
   = (Raise e, d1, [Called (CreateMany (body req))]))
  /\ (isArray (body req) = false ->
      createOne (service_of req) (body req) (db st) = (Raise e, d1) ->
      outcome_of (post_handler req) st
      = (Raise e, d1, [Called (CreateOne (body req))])).
Proof.
  split; intros Harr Hcreate; unfold_handlers; rewrite Harr, Hcreate; cbn;
    now tidy_log.
Qed.



Lemma length_append (a b : string) :
  String.length (a ++ b) = String.length a + String.length b.
Proof. induction a as [| c a IH]; cbn; [reflexivity | now rewrite IH]. Qed.

Lemma substring_all (s : string) : substring 0 (String.length s) s = s.
Proof. induction s as [| c s IH]; cbn; [reflexivity | now rewrite IH]. Qed.

Lemma substring_after_prefix (pre suf : string) :
  substring (String.length pre) (String.length suf) (pre ++ suf) = suf.
Proof.
  induction pre as [| c pre IH]; cbn; [apply substring_all | exact IH].
Qed.

Lemma substring_split (n : nat) (s : string) :
  n <= String.length s ->
  s = (substring 0 n s ++ substring n (String.length s - n) s)%string.
Proof.
  revert s. induction n as [| n IH]; intros s Hn.
  - rewrite Nat.sub_0_r, substring_all. now destruct s.
  - destruct s as [| c s]; cbn in *; [inversion Hn|].
    f_equal. apply IH. now apply le_S_n.
Qed.

(** [endsWith] holds exactly of the strings that are some prefix followed
    by the suffix. *)
Lemma endsWith_spec (s suffix : string) :
  endsWith s suffix = true <-> exists pre, s = (pre ++ suffix)%string.
Proof.
  unfold endsWith. rewrite andb_true_iff, Nat.leb_le, String.eqb_eq. split.
  - intros [Hlen Hsub].
    exists (substring 0 (String.length s - String.length suffix) s).
    pose proof (substring_split (String.length s - String.length suffix) s
                  (Nat.le_sub_l _ _)) as Hsplit.
    rewrite (Nat.add_sub_eq_l _ _ _ (Nat.sub_add _ _ Hlen)) in Hsplit.
    now rewrite Hsub in Hsplit.
  - intros [pre ->]. rewrite length_append. split.
    + apply Nat.le_add_l.
    + rewrite Nat.add_sub. apply substring_after_prefix.
Qed.

(** GET /:pk on a path that ends in "me" (whatever precedes it) calls
    [next] at once: no permission is read and no payload is set.  On any
    other path the handler reads the record under the pk parameter. *)
Theorem get_pk_skips_paths_ending_in_me (req : Request) (st : State) :
  ((exists pre, path req = (pre ++ "me")%string) ->
   outcome_of (get_pk_handler req) st = (Ok tt, db st, [Next]))
  /\ ((forall pre, path req <> (pre ++ "me")%string) ->
      first_call (snd (outcome_of (get_pk_handler req) st))
      = Some (ReadOne (VStr (params_pk req)) (sanitizedQuery req))).
Proof.
  split.
  - intros Hme. apply endsWith_spec in Hme. unfold_handlers. rewrite Hme.
    cbn. now tidy_log.
  - intros Hother.
    assert (Hends : endsWith (path req) "me" = false).
    { destruct (endsWith (path req) "me") eqn:E; [|reflexivity].
      apply endsWith_spec in E. destruct E as [pre E].
      now destruct (Hother pre). }
    unfold_handlers. rewrite Hends. split_run; now tidy_log.
Qed.

(** The read handler of GET / and SEARCH / picks its read by the request:
    the singleton read whenever the collection is a singleton, whatever
    the body; otherwise the read by keys when the body has truthy [keys],
    and the read by query when it does not.  A null or undefined body on a
    collection that is not a singleton throws a TypeError before any
    service call. *)
Theorem readHandler_dispatch (req : Request) (st : State) :
  (singleton req = true ->
   first_call (snd (outcome_of (readHandler req) st))
   = Some (ReadSingleton (sanitizedQuery req)))
  /\ (forall keys,
        singleton req = false -> member (body req) "keys" = Ok keys ->
        first_call (snd (outcome_of (readHandler req) st))
        = Some (if truthy keys then ReadMany keys (sanitizedQuery req)
                else ReadByQuery (sanitizedQuery req)))
  /\ (singleton req = false ->
      body req = VNull \/ body req = VUndefined ->
      outcome_of (readHandler req) st = (Raise TypeError, db st, [])).
Proof.
  split; [|split].
  - intros Hs. unfold_handlers. rewrite Hs. split_run; now tidy_log.
  - intros keys Hs Hk. unfold_handlers. rewrite Hs, Hk. cbn.
    destruct (truthy keys); split_run; now tidy_log.
  - intros Hs Hb. unfold_handlers. rewrite Hs.
    destruct Hb as [-> | ->]; cbn; now tidy_log.
Qed.


(** PATCH / picks its update by the body: an array goes to [updateBatch]
    whole; an object with truthy [keys] goes to [updateMany] with its
    [keys] and [data]; any other object has its [query] sanitized and goes
    to [updateByQuery].  When the sanitizer throws, or the body is null,
    the handler throws before any service call and the database is
    untouched. *)
Theorem patch_dispatch (req : Request) (st : State) :
  (isArray (body req) = true ->
   first_call (snd (outcome_of (patch_handler req) st))
   = Some (UpdateBatch (body req)))
  /\ (forall props,
        body req = VObj props -> truthy (lookup_prop "keys" props) = true ->
        first_call (snd (outcome_of (patch_handler req) st))
        = Some (UpdateMany (lookup_prop "keys" props)
                  (lookup_prop "data" props)))
  /\ (forall props,
        body req = VObj props -> truthy (lookup_prop "keys" props) = false ->
        match sanitizeQuery (lookup_prop "query" props) (accountability req)
        with
        | Ok q =>
          first_call (snd (outcome_of (patch_handler req) st))
          = Some (UpdateByQuery q (lookup_prop "data" props))
        | Raise e => outcome_of (patch_handler req) st = (Raise e, db st, [])
        end)
  /\ (body req = VNull ->
      outcome_of (patch_handler req) st = (Raise TypeError, db st, [])).
Proof.
  split; [|split; [|split]].
  - intros Harr. unfold_handlers. rewrite Harr. split_run; now tidy_log.
  - intros props Hb Hk. unfold_handlers. rewrite Hb. cbn. rewrite Hk.
    split_run; now tidy_log.
  - intros props Hb Hk. unfold_handlers. rewrite Hb. cbn. rewrite Hk.
    destruct (sanitizeQuery _ _) as [q | e]; cbn;
      [split_run; now tidy_log | now tidy_log].
  - intros Hb. unfold_handlers. rewrite Hb. cbn. now tidy_log.
Qed.

(** DELETE / picks its delete by the body in the same way: an array goes
    to [deleteMany] whole, an object with truthy [keys] goes to
    [deleteMany] with those keys, any other object has its [query]
    sanitized and goes to [deleteByQuery]; a sanitizer that throws, or a
    null body, stops the handler before anything is deleted. *)
Theorem delete_dispatch (req : Request) (st : State) :
  (isArray (body req) = true ->
   first_call (snd (outcome_of (delete_handler req) st))
   = Some (DeleteMany (body req)))
  /\ (forall props,
        body req = VObj props -> truthy (lookup_prop "keys" props) = true ->
        first_call (snd (outcome_of (delete_handler req) st))
        = Some (DeleteMany (lookup_prop "keys" props)))
  /\ (forall props,
        body req = VObj props -> truthy (lookup_prop "keys" props) = false ->
        match sanitizeQuery (lookup_prop "query" props) (accountability req)
        with
        | Ok q =>
          first_call (snd (outcome_of (delete_handler req) st))
          = Some (DeleteByQuery q)
        | Raise e => outcome_of (delete_handler req) st = (Raise e, db st, [])
        end)
  /\ (body req = VNull ->
      outcome_of (delete_handler req) st = (Raise TypeError, db st, [])).
Proof.
  split; [|split; [|split]].
  - intros Harr. unfold_handlers. rewrite Harr. split_run; now tidy_log.
  - intros props Hb Hk. unfold_handlers. rewrite Hb. cbn. rewrite Hk.
    split_run; now tidy_log.
  - intros props Hb Hk. unfold_handlers. rewrite Hb. cbn. rewrite Hk.
    destruct (sanitizeQuery _ _) as [q | e]; cbn;
      [split_run; now tidy_log | now tidy_log].
  - intros Hb. unfold_handlers. rewrite Hb. cbn. now tidy_log.
Qed.

End Facts.

(** ** The handlers on concrete requests *)

Example post_by_reader_creates_without_payload :
  outcome_of
    (post_handler (services := sample_services) (sample_request false role_row "/" "")) (sample_state [])
  = (Ok tt, [role_row],
     [Called (CreateOne role_row); Called (ReadOne (VNum 0) tt); Next]).
Proof. reflexivity. Qed.

Example post_array_by_admin :
  outcome_of
    (post_handler (services := sample_services) (sample_request true (VArr [role_row; role_row]) "/" ""))
    (sample_state [])
  = (Ok tt, [role_row; role_row],
     [Called (CreateMany (VArr [role_row; role_row]));
      Called (ReadMany (VArr [VNum 0; VNum 1]) tt);
      SetPayload (VObj [("data", VArr [role_row; role_row])]); Next]).
Proof. reflexivity. Qed.

Lemma forbidden_never_from_read_back_witness :
  outcome_of
    (handler_of (services := sample_services) PatchPk
       (sample_request true role_row "/5" "5"))
    (sample_state [role_row])
  = (Raise ForbiddenException, [role_row],
     [Called (UpdateOne (VStr "5") role_row)])
  /\ count is_read_call
       (snd (outcome_of
               (handler_of (services := sample_services) PatchPk
                  (sample_request true role_row "/5" "5"))
               (sample_state [role_row])))
     = 0.
Proof.
  split; [reflexivity|].
  exact (proj1 (forbidden_never_from_read_back (services := sample_services)
                  PatchPk (sample_request true role_row "/5" "5")
                  (sample_state [role_row]) eq_refl)
           eq_refl).
Defined.

Lemma post_reads_back_created_keys_witness :
  outcome_of
    (post_handler (services := sample_services) (sample_request false role_row "/" "")) (sample_state [])
  = (Ok tt, [role_row],
     [Called (CreateOne role_row); Called (ReadOne (VNum 0) tt); Next])
  /\ outcome_of
       (post_handler (services := sample_services) (sample_request true (VArr [role_row]) "/" ""))
       (sample_state [])
     = (Ok tt, [role_row],
        [Called (CreateMany (VArr [role_row]));
         Called (ReadMany (VArr [VNum 0]) tt);
         SetPayload (VObj [("data", VArr [role_row])]); Next]).
Proof.
  split.
  - exact (proj2 (post_reads_back_created_keys (services := sample_services)
                    (sample_request false role_row "/" "") (sample_state []))
             (KeyNum 0) [role_row] (Raise ForbiddenException) [role_row]
             eq_refl eq_refl eq_refl).
  - exact (proj1 (post_reads_back_created_keys (services := sample_services)
                    (sample_request true (VArr [role_row]) "/" "")
                    (sample_state []))
             [KeyNum 0] [role_row] (Ok (VArr [role_row])) [role_row]
             eq_refl eq_refl eq_refl).
Defined.

Lemma post_create_failure_stops_witness :
  outcome_of
    (post_handler (services := sample_services) (sample_request true (VStr "role") "/" ""))
    (sample_state [])
  = (Raise (OtherException "InvalidPayloadException"), [],
     [Called (CreateOne (VStr "role"))]).
Proof.
  exact (proj2 (post_create_failure_stops (services := sample_services)
                  (sample_request true (VStr "role") "/" "")
                  (sample_state [])
                  (OtherException "InvalidPayloadException") [])
           eq_refl eq_refl).
Defined.


Lemma get_pk_skips_paths_ending_in_me_witness :
  outcome_of
    (get_pk_handler (services := sample_services) (sample_request true VUndefined "/welcome" "welcome"))
    (sample_state [role_row])
  = (Ok tt, [role_row], [Next]).
Proof.
  apply (proj1 (get_pk_skips_paths_ending_in_me (services := sample_services)
                  (sample_request true VUndefined "/welcome" "welcome")
                  (sample_state [role_row]))).
  now exists "/welco".
Defined.

Lemma readHandler_dispatch_witness :
  first_call
    (snd (outcome_of
            (readHandler (services := sample_services)
               (sample_request true (VObj [("keys", VArr [VNum 0])]) "/" ""))
            (sample_state [role_row])))
  = Some (ReadMany (VArr [VNum 0]) tt)
  /\ outcome_of
       (readHandler (services := sample_services) (sample_request true VNull "/" ""))
       (sample_state [role_row])
     = (Raise TypeError, [role_row], []).
Proof.
  destruct (readHandler_dispatch (services := sample_services)
              (sample_request true (VObj [("keys", VArr [VNum 0])]) "/" "")
              (sample_state [role_row])) as (_ & Hkeys & _).
  destruct (readHandler_dispatch (services := sample_services)
              (sample_request true VNull "/" "")
              (sample_state [role_row])) as (_ & _ & Hnull).
  split.
  - exact (Hkeys (VArr [VNum 0]) eq_refl eq_refl).
  - exact (Hnull eq_refl (or_introl eq_refl)).
Defined.


Lemma patch_dispatch_witness :
  first_call
    (snd (outcome_of
            (patch_handler (services := sample_services)
               (sample_request true
                  (VObj [("keys", VArr []); ("data", role_row)]) "/" ""))
            (sample_state [role_row])))
  = Some (UpdateMany (VArr []) role_row)
  /\ outcome_of
       (patch_handler (services := sample_services)
          (sample_request true (VObj [("query", VStr "all")]) "/" ""))
       (sample_state [role_row])
     = (Raise (OtherException "InvalidQueryException"), [role_row], []).
Proof.
  destruct (patch_dispatch (services := sample_services)
              (sample_request true
                 (VObj [("keys", VArr []); ("data", role_row)]) "/" "")
              (sample_state [role_row])) as (_ & Hkeys & _).
  destruct (patch_dispatch (services := sample_services)
              (sample_request true (VObj [("query", VStr "all")]) "/" "")
              (sample_state [role_row])) as (_ & _ & Hquery & _).
  split.
  - exact (Hkeys _ eq_refl eq_refl).
  - exact (Hquery _ eq_refl eq_refl).
Defined.

Lemma delete_dispatch_witness :
  first_call
    (snd (outcome_of
            (delete_handler (services := sample_services) (sample_request true (VArr [VNum 0]) "/" ""))
            (sample_state [role_row])))
  = Some (DeleteMany (VArr [VNum 0]))
  /\ outcome_of
       (delete_handler (services := sample_services)
          (sample_request true (VObj [("keys", VNull)]) "/" ""))
       (sample_state [role_row])
     = (Raise (OtherException "InvalidQueryException"), [role_row], []).
Proof.
  destruct (delete_dispatch (services := sample_services)
              (sample_request true (VArr [VNum 0]) "/" "")
              (sample_state [role_row])) as (Harr & _).
  destruct (delete_dispatch (services := sample_services)
              (sample_request true (VObj [("keys", VNull)]) "/" "")
              (sample_state [role_row])) as (_ & _ & Hquery & _).
  split.
  - exact (Harr eq_refl).
  - exact (Hquery _ eq_refl eq_refl).
Defined.

End PermissionsFacts.

(** * Invariants of the cache gate *)

Module GateInvariants.
Import Js CacheGate GateFacts.

Section Invariants.

Context {Request : Type} `{GateDeps Request}.

Lemma active_store_unique (w : World) (req : Request) (s1 s2 : Keyv) :
  active w req s1 -> active w req s2 -> s1 = s2.
Proof. intros (_ & _ & H1) (_ & _ & H2). congruence. Qed.

Lemma in_status_events (w : World) (status : string) (e : event) :
  In e (status_events w status) ->
  exists h, CACHE_STATUS_HEADER w = Some h /\ h <> "" /\ e = SetHeader h status.
Proof.
  unfold status_events. destruct (CACHE_STATUS_HEADER w) as [h|]; [|easy].
  destruct (String.eqb_spec h ""); cbn; [easy|].
  intros [<- | []]. now exists h.
Qed.

(** Taking a run apart along its branch. *)
Ltac by_branch w req t Hrun Hbr :=
  destruct (run_branch w req) as (t & Hrun & Hbr);
  unfold trace_of; rewrite Hrun; cbn [fst snd].

Ltac count_events :=
  unfold count, hit_trace, miss_trace; cbn [fst snd];
  rewrite ?filter_app, ?filter_status_events by easy;
  cbn.

(** Every run of the gate completes without throwing and ends the request
    in exactly one way: its last call is either [next] or [res.json], and
    it makes no other call of either kind. *)
Theorem gate_ends_request_exactly_once (w : World) (req : Request) :
  fst (run w req) = Normal tt
  /\ count is_next (trace_of w req) + count is_send (trace_of w req) = 1
  /\ exists pre last,
       trace_of w req = pre ++ [last]
       /\ (is_next last || is_send last) = true.
Proof.
  by_branch w req t Hrun Hbr. split; [reflexivity|].
  destruct Hbr; (split; [now count_events|]).
  - now exists [], CallNext.
  - now exists (status_events w "MISS"), CallNext.
  - eexists (_ :: _ :: status_events w "MISS"), CallNext. now split.
  - eexists (_ :: status_events w "MISS"), CallNext. now split.
  - eexists (_ :: _ :: _ :: status_events w "MISS"), CallNext. now split.
  - unfold hit_trace.
    eexists (_ :: _ :: _ :: _ :: status_events w "HIT"), (SendJson v).
    now split.
Qed.

(** The gate answers from the cache exactly when it is past its guards,
    the skip policy does not fire, the read under the request's key returns
    a truthy value and the read of the expiry record does not throw; the
    body sent is that value.  A stored payload that is falsy (null, false,
    0, the empty string) is never sent. *)
Theorem served_exactly_when_payload_truthy (w : World) (req : Request)
  (body : jsval) :
  In (SendJson body) (trace_of w req) <->
  exists store rec,
    active w req store
    /\ shouldSkipCache req = false
    /\ store (getCacheKey req) = Normal body
    /\ truthy body = true
    /\ store (expiry_key req) = Normal rec.
Proof.
  split.
  - by_branch w req t Hrun Hbr. intros Hin.
    assert (Hst : forall st, ~ In (SendJson body) (status_events w st)).
    { intros st Hi. now apply status_events_headers in Hi. }
    destruct Hbr as [ | | | | | store v rec Ha Hs Hr Hv Hx];
      try (unfold miss_trace in Hin; cbn in Hin;
           repeat (destruct Hin as [Hin | Hin]; [discriminate|]);
           apply in_app_or in Hin; destruct Hin as [Hin | [Hin | []]];
           [now apply Hst in Hin | discriminate]).
    + destruct Hin as [Hin | []]; discriminate.
    + unfold hit_trace in Hin. cbn in Hin.
      repeat (destruct Hin as [Hin | Hin]; [discriminate|]).
      apply in_app_or in Hin. destruct Hin as [Hin | [Hin | []]];
        [now apply Hst in Hin|].
      injection Hin as <-. now exists store, rec.
  - intros (store & rec & Ha & Hs & Hr & Hv & Hx). unfold trace_of.
    rewrite (run_served _ _ _ _ _ Ha Hs Hr Hv Hx). cbn [snd].
    unfold hit_trace. apply in_or_app. right. apply in_or_app. right.
    now left.
Qed.

(** The gate reads the store at most twice and only under the request's
    key and its expiry key, in that order; it reads nothing at all exactly
    when one of the three guards fires or the skip policy does. *)
Theorem store_reads_are_key_then_expiry (w : World) (req : Request) :
  (filter is_store_get (trace_of w req) = []
   \/ filter is_store_get (trace_of w req) = [StoreGet (getCacheKey req)]
   \/ filter is_store_get (trace_of w req)
      = [StoreGet (getCacheKey req); StoreGet (expiry_key req)])
  /\ (filter is_store_get (trace_of w req) = [] <->
      early_exit w req \/ shouldSkipCache req = true).
Proof.
  by_branch w req t Hrun Hbr.
  destruct Hbr as [Hearly | store Ha Hs | store e Ha Hs Hr
                  | store v Ha Hs Hr Hv | store v e Ha Hs Hr Hv Hx
                  | store v rec Ha Hs Hr Hv Hx];
    unfold hit_trace, miss_trace;
    rewrite ?filter_app, ?filter_status_events by easy; cbn.
  - split; [now left|]. split; auto.
  - split; [now left|]. split; auto.
  - split; [right; now left|]. split; [discriminate|].
    intros [Hearly | Hskip]; [|congruence].
    now destruct (active_not_bypassed _ _ _ Ha).
  - split; [right; now left|]. split; [discriminate|].
    intros [Hearly | Hskip]; [|congruence].
    now destruct (active_not_bypassed _ _ _ Ha).
  - split; [right; now right|]. split; [discriminate|].
    intros [Hearly | Hskip]; [|congruence].
    now destruct (active_not_bypassed _ _ _ Ha).
  - split; [right; now right|]. split; [discriminate|].
    intros [Hearly | Hskip]; [|congruence].
    now destruct (active_not_bypassed _ _ _ Ha).
Qed.

(** A run that hands the request on sets at most one header, and no
    header other than the status header: every header it sets has the
    configured, non-empty CACHE_STATUS_HEADER name and the value MISS. *)
Theorem pass_through_sets_only_miss_status (w : World) (req : Request) :
  In CallNext (trace_of w req) ->
  count is_set_header (trace_of w req) <= 1
  /\ (forall name value,
        In (SetHeader name value) (trace_of w req) ->
        CACHE_STATUS_HEADER w = Some name /\ name <> "" /\ value = "MISS").
Proof.
  by_branch w req t Hrun Hbr. intros Hnext.
  assert (Hst : forall name value st,
             In (SetHeader name value) (status_events w st) ->
             CACHE_STATUS_HEADER w = Some name /\ name <> "" /\ value = st).
  { intros name value st Hi. apply in_status_events in Hi.
    destruct Hi as (h & Hh & Hne & Heq). injection Heq as -> ->. auto. }
  assert (Hlen : forall st, List.length (status_events w st) <= 1).
  { intros st. unfold status_events.
    destruct (CACHE_STATUS_HEADER w) as [h|]; [|cbn; auto].
    destruct (negb (h =? "")%string); cbn; auto. }
  assert (Hcount : forall st,
             List.length (filter is_set_header (status_events w st)) <= 1).
  { intros st. eapply Nat.le_trans; [apply filter_length_le | apply Hlen]. }
  destruct Hbr as [ | | | | | store v rec Ha Hs Hr Hv Hx].
  6:{ exfalso. unfold hit_trace in Hnext. cbn in Hnext.
      repeat (destruct Hnext as [Hnext | Hnext]; [discriminate|]).
      apply in_app_or in Hnext. destruct Hnext as [Hnext | [Hnext | []]];
        [|discriminate].
      apply status_events_headers in Hnext. discriminate. }
  all: split;
    [ unfold count, miss_trace; rewrite ?filter_app; cbn;
      rewrite ?length_app; cbn; rewrite ?Nat.add_0_r; auto
    | intros name value Hin; unfold miss_trace in Hin; cbn in Hin;
      repeat (destruct Hin as [Hin | Hin]; [discriminate|]);
      first
        [ contradiction
        | apply in_app_or in Hin; destruct Hin as [Hin | [Hin | []]];
          [now apply Hst in Hin | discriminate] ] ].
Qed.

(** Every warning the gate logs is about a read that failed: it carries the
    error thrown by the read under the request's key or under its expiry
    key, and its text names that key and the error's message. *)
Theorem warning_names_failed_read (w : World) (req : Request)
  (e : JsError) (msg : string) :
  In (LogWarn e msg) (trace_of w req) ->
  exists store key,
    active w req store
    /\ (key = getCacheKey req \/ key = expiry_key req)
    /\ store key = Throw e
    /\ msg = ("[cache] Couldn't read key " ++ key ++ ". " ++ message e)%string
    /\ In CallNext (trace_of w req)
    /\ count is_warn (trace_of w req) = 1.
Proof.
  destruct (run_branch w req) as (t & Hrun & Hbr).
  unfold trace_of. rewrite Hrun. cbn [snd]. intros Hin.
  assert (Hst : forall st, ~ In (LogWarn e msg) (status_events w st)).
  { intros st Hi. now apply status_events_headers in Hi. }
  assert (Htail : forall st last,
             last <> LogWarn e msg ->
             ~ In (LogWarn e msg) (status_events w st ++ [last])).
  { intros st last Hl Hi. apply in_app_or in Hi.
    destruct Hi as [Hi | [Hi | []]]; [now apply Hst in Hi | now apply Hl]. }
  destruct Hbr as [Hearly | store Ha Hs | store e' Ha Hs Hr
                  | store v Ha Hs Hr Hv | store v e' Ha Hs Hr Hv Hx
                  | store v rec Ha Hs Hr Hv Hx].
  - destruct Hin as [Hin | []]; discriminate.
  - now apply Htail in Hin.
  - cbn in Hin. destruct Hin as [Hin | [Hin | Hin]]; [discriminate | |].
    + injection Hin as -> <-. exists store, (getCacheKey req).
      split; [exact Ha|]. split; [now left|]. split; [exact Hr|].
      split; [reflexivity|]. split; [|now count_events].
      apply in_or_app. right. apply in_or_app. right. now left.
    + now apply Htail in Hin.
  - unfold miss_trace in Hin. cbn in Hin.
    destruct Hin as [Hin | Hin]; [discriminate|]. now apply Htail in Hin.
  - cbn in Hin.
    destruct Hin as [Hin | [Hin | [Hin | Hin]]]; try discriminate.
    + injection Hin as -> <-. exists store, (expiry_key req).
      split; [exact Ha|]. split; [now right|]. split; [exact Hx|].
      split; [reflexivity|]. split; [|now count_events].
      apply in_or_app. right. apply in_or_app. right. now left.
    + now apply Htail in Hin.
  - unfold hit_trace in Hin. cbn in Hin.
    repeat (destruct Hin as [Hin | Hin]; [discriminate|]).
    now apply Htail in Hin.
Qed.

End Invariants.

Lemma served_exactly_when_payload_truthy_witness :
  In (SendJson sample_payload)
    (trace_of (sample_world (Some store_expired)) get_items)
  /\ ~ In (SendJson (JNum 0))
         (trace_of (sample_world (Some (fun _ => Normal (JNum 0))))
            get_items).
Proof.
  split.
  - apply (proj2 (served_exactly_when_payload_truthy
                    (sample_world (Some store_expired)) get_items
                    sample_payload)).
    exists store_expired, (JObj [("exp", JNum 1000)]).
    split; [apply get_items_active|]. repeat split.
  - intros Hin.
    apply (proj1 (served_exactly_when_payload_truthy
                    (sample_world (Some (fun _ => Normal (JNum 0))))
                    get_items (JNum 0))) in Hin.
    destruct Hin as (store & rec & _ & _ & _ & Hv & _). discriminate Hv.
Defined.

Lemma pass_through_sets_only_miss_status_witness :
  count is_set_header (trace_of (sample_world (Some store_down)) get_items)
  <= 1
  /\ (CACHE_STATUS_HEADER (sample_world (Some store_down))
      = Some "X-Cache-Status"
      /\ "X-Cache-Status" <> ""
      /\ "MISS" = "MISS").
Proof.
  assert (Hnext : In CallNext
                    (trace_of (sample_world (Some store_down)) get_items)).
  { cbn. do 3 right. now left. }
  destruct (pass_through_sets_only_miss_status
              (sample_world (Some store_down)) get_items Hnext)
    as (Hcount & Hhdr).
  split; [exact Hcount|].
  apply (Hhdr "X-Cache-Status" "MISS"). cbn. do 2 right. now left.
Defined.

Lemma warning_names_failed_read_witness :
  exists store key,
    active (sample_world (Some store_down)) get_items store
    /\ (key = getCacheKey get_items \/ key = expiry_key get_items)
    /\ store key = Throw (mkError "ECONNREFUSED")
    /\ "[cache] Couldn't read key /items. ECONNREFUSED"
       = ("[cache] Couldn't read key " ++ key ++ ". "
          ++ message (mkError "ECONNREFUSED"))%string
    /\ In CallNext (trace_of (sample_world (Some store_down)) get_items)
    /\ count is_warn (trace_of (sample_world (Some store_down)) get_items)
       = 1.
Proof.
  apply (warning_names_failed_read (sample_world (Some store_down))
           get_items (mkError "ECONNREFUSED")
           "[cache] Couldn't read key /items. ECONNREFUSED").
  cbn. right. now left.
Defined.

End GateInvariants.

(** * Invariants of the webhooks service *)

Module WebhooksInvariants.
Import Js Webhooks WebhooksFacts.

Section Invariants.

Context {DB Item MutationOptions PrimaryKey : Type}.
Context {items : ItemsService DB Item MutationOptions PrimaryKey}.
Context {messenger : Messenger}.

Lemma override_db {A} (m : DB -> completion A * DB) (st : State) :
  db (snd (bind (await_super m) (fun result =>
           bind (messenger_publish "webhooks" reload) (fun _ => ret result))
             st))
  = snd (m (db st)).
Proof.
  rewrite override_run. destruct (m (db st)) as [[r | e] db']; cbn;
    [|reflexivity].
  now destruct (publish_outcome "webhooks" reload (published st)).
Qed.

(** The overrides leave the database exactly as the inherited mutation
    left it, however the publish call ends: a publish that throws does not
    undo the mutation, and a mutation that throws is not followed by any
    further change. *)
Theorem override_keeps_inherited_database (st : State) :
  (forall data opts,
     db (snd (createOne data opts st))
     = snd (super_createOne data opts (db st)))
  /\ (forall data opts,
        db (snd (createMany data opts st))
        = snd (super_createMany data opts (db st)))
  /\ (forall keys data opts,
        db (snd (updateMany keys data opts st))
        = snd (super_updateMany keys data opts (db st)))
  /\ (forall keys opts,
        db (snd (deleteMany keys opts st))
        = snd (super_deleteMany keys opts (db st))).
Proof. repeat split; intros; apply override_db. Qed.

End Invariants.

End WebhooksInvariants.
